(** * sj2psi: percent spliced-in scores of splice junctions

    A shallow embedding of [sj2psi/__init__.py].  The module is a thin layer
    over pandas, so the file has three parts:

    - the values pandas stores in a column (int64, float64 with NaN and the
      infinities, object cells holding a string or None, bool), frames with
      a row index and named columns, and the pandas operations the module
      calls, with the errors they raise;
    - a store of frames addressed by reference, because [get_psis] assigns
      into the frame it is given and only later rebinds its local name to a
      fresh frame;
    - the module's own functions, written statement by statement over those
      operations, and the theorems about them; for the locus of
      [chr_start_stop_to_sj_ind], the str methods and the [int] of Python
      on the text it is given.

    Numbers are exact: an int64 is a [Z] and a finite float64 a rational, so
    neither int64 overflow nor binary64 rounding is represented, and zero
    has no sign.

    The pandas behaviour followed is the documented one, which is that of
    the current releases.  Two points changed over time: the sum of a group
    whose values are all NaN is 0.0 (NaN before 0.22), and a left join
    returns the rows of the left frame in their order (before 2.2 they came
    back sorted by key when the left index had repeated labels).  A dict is
    iterated in insertion order, as Python has done since 3.7. *)

From Stdlib Require Import ZArith QArith Qreduction Bool Ascii String List Lia.
From Stdlib Require DecimalString DecimalN DecimalPos.
Import ListNotations.
Local Open Scope Z_scope.
Local Open Scope string_scope.
Local Open Scope list_scope.

(** ** float64 *)

Inductive fval : Type :=
| NaN
| PInf
| NInf
| Fin (q : Q).

Definition of_int (z : Z) : fval := Fin (inject_Z z).

Definition is_nan (a : fval) : bool :=
  match a with NaN => true | _ => false end.

(** [a + b] on float64. *)
Definition fadd (a b : fval) : fval :=
  match a, b with
  | NaN, _ | _, NaN => NaN
  | PInf, NInf | NInf, PInf => NaN
  | PInf, _ | _, PInf => PInf
  | NInf, _ | _, NInf => NInf
  | Fin x, Fin y => Fin (Qred (x + y))
  end.

(** [a / b] on float64, as numpy divides arrays: no exception, a non-zero
    number over zero is an infinity and 0/0 is NaN. *)
Definition fdiv (a b : fval) : fval :=
  match a, b with
  | NaN, _ | _, NaN => NaN
  | Fin x, Fin y =>
      if Qeq_bool y 0 then
        if Qeq_bool x 0 then NaN else if Qle_bool 0 x then PInf else NInf
      else Fin (Qred (x / y))
  | Fin _, _ => Fin 0
  | PInf, Fin y => if Qle_bool 0 y then PInf else NInf
  | NInf, Fin y => if Qle_bool 0 y then NInf else PInf
  | _, _ => NaN
  end.

(** [a >= t] for an integer scalar [t]; a comparison with NaN is False. *)
Definition fge (a : fval) (t : Z) : bool :=
  match a with
  | NaN | NInf => false
  | PInf => true
  | Fin q => Qle_bool (inject_Z t) q
  end.

Definition feqb (a b : fval) : bool :=
  match a, b with
  | NaN, NaN | PInf, PInf | NInf, NInf => true
  | Fin x, Fin y => Qeq_bool x y
  | _, _ => false
  end.

(** Sum of a float64 array that skips NaN entries and starts from 0.0
    ([skipna=True], [min_count=0]). *)
Definition nansum (xs : list fval) : fval :=
  fold_left fadd (filter (fun x => negb (is_nan x)) xs) (Fin 0).

(** ** Cells, labels and columns *)

Inductive cell : Type :=
| CInt (z : Z)
| CFloat (f : fval)
| CObj (o : option string)
| CBool (b : bool).

Definition cell_eqb (a b : cell) : bool :=
  match a, b with
  | CInt x, CInt y => Z.eqb x y
  | CFloat x, CFloat y => feqb x y
  | CObj (Some x), CObj (Some y) => String.eqb x y
  | CObj None, CObj None => true
  | CBool x, CBool y => Bool.eqb x y
  | _, _ => false
  end.

(** A missing value: NaN in a float column, None in an object column. *)
Definition cell_missing (a : cell) : bool :=
  match a with
  | CFloat NaN | CObj None => true
  | _ => false
  end.

(** A row label: one cell per index level. *)
Definition label : Type := list cell.

Fixpoint label_eqb (a b : label) : bool :=
  match a, b with
  | [], [] => true
  | x :: a', y :: b' => cell_eqb x y && label_eqb a' b'
  | _, _ => false
  end.

Definition label_missing (a : label) : bool := existsb cell_missing a.

Fixpoint index_eqb (a b : list label) : bool :=
  match a, b with
  | [], [] => true
  | x :: a', y :: b' => label_eqb x y && index_eqb a' b'
  | _, _ => false
  end.

Definition mem_label (l : label) (ls : list label) : bool :=
  existsb (label_eqb l) ls.

Fixpoint has_dup (ls : list label) : bool :=
  match ls with
  | [] => false
  | l :: ls' => mem_label l ls' || has_dup ls'
  end.

(** Distinct labels, each kept at its first occurrence. *)
Fixpoint dedup (ls : list label) : list label :=
  match ls with
  | [] => []
  | l :: ls' => l :: filter (fun x => negb (label_eqb l x)) (dedup ls')
  end.

(** The default index of a frame of [n] rows: 0, 1, ..., n-1. *)
Definition range_index (n : nat) : list label :=
  map (fun i => [CInt (Z.of_nat i)]) (seq 0 n).

(** The two numeric dtypes. *)
Inductive numcol : Type :=
| NInt (xs : list Z)
| NFloat (xs : list fval).

Inductive column : Type :=
| Num (c : numcol)
| ObjCol (xs : list (option string))
| BoolCol (xs : list bool).

Definition num_length (c : numcol) : nat :=
  match c with NInt xs => length xs | NFloat xs => length xs end.

Definition col_length (c : column) : nat :=
  match c with
  | Num c => num_length c
  | ObjCol xs => length xs
  | BoolCol xs => length xs
  end.

Definition col_cells (c : column) : list cell :=
  match c with
  | Num (NInt xs) => map CInt xs
  | Num (NFloat xs) => map CFloat xs
  | ObjCol xs => map CObj xs
  | BoolCol xs => map CBool xs
  end.

(** [astype('float')] on a numeric column. *)
Definition to_floats (c : numcol) : list fval :=
  match c with
  | NInt xs => map of_int xs
  | NFloat xs => xs
  end.

(** ** Series and frames *)

Record series : Type := mk_series {
  s_index : list label;
  s_values : numcol
}.

Record frame : Type := mk_frame {
  index : list label;
  columns : list (string * column)
}.

Fixpoint lookup_col (name : string) (cols : list (string * column))
  : option column :=
  match cols with
  | [] => None
  | (n, c) :: cols' => if String.eqb n name then Some c else lookup_col name cols'
  end.

Definition has_col (name : string) (df : frame) : bool :=
  match lookup_col name (columns df) with Some _ => true | None => false end.

(** Assignment to a column: an existing column is replaced where it stands,
    a new one goes last. *)
Fixpoint set_col (name : string) (c : column) (cols : list (string * column))
  : list (string * column) :=
  match cols with
  | [] => [(name, c)]
  | (n, c') :: cols' =>
      if String.eqb n name then (n, c) :: cols'
      else (n, c') :: set_col name c cols'
  end.

(** ** Errors and the store *)

Inductive exn : Type :=
| AttributeError (name : string)
| KeyError (name : string)
| TypeError
| ValueError (msg : string).

Definition ref : Type := nat.
Definition store : Type := list frame.

(** A computation reads and writes the store and either returns or raises;
    what it wrote before raising stays written. *)
Definition M (A : Type) : Type := store -> (exn + A) * store.

Definition ret {A} (a : A) : M A := fun h => (inr a, h).
Definition raise {A} (e : exn) : M A := fun h => (inl e, h).
Definition bind {A B} (m : M A) (k : A -> M B) : M B :=
  fun h =>
    match m h with
    | (inl e, h') => (inl e, h')
    | (inr a, h') => k a h'
    end.

Notation "x <- m ;; k" := (bind m (fun x => k))
  (at level 61, m at next level, right associativity).
Notation "m ;;; k" := (bind m (fun _ => k))
  (at level 61, right associativity).

Definition lift {A} (r : exn + A) : M A :=
  match r with inl e => raise e | inr a => ret a end.

Fixpoint update {A} (i : nat) (x : A) (l : list A) : list A :=
  match l, i with
  | [], _ => []
  | _ :: l', O => x :: l'
  | y :: l', S i' => y :: update i' x l'
  end.

(** The frame a reference points to.  A reference held by a Python name
    always points to an object; the error is there to keep [deref] total. *)
Definition deref (r : ref) : M frame :=
  fun h =>
    match nth_error h r with
    | Some df => (inr df, h)
    | None => (inl (ValueError "dangling reference"), h)
    end.

(** In-place replacement of the frame behind a reference. *)
Definition put (r : ref) (df : frame) : M unit :=
  fun h => (inr tt, update r df h).

(** A new frame object. *)
Definition alloc (df : frame) : M ref :=
  fun h => (inr (length h), h ++ [df]).

(** ** The pandas operations the module calls *)

(** Boolean indexing keeps the positions where the mask is True. *)
Fixpoint pick {A} (mask : list bool) (xs : list A) : list A :=
  match mask, xs with
  | b :: mask', x :: xs' => if b then x :: pick mask' xs' else pick mask' xs'
  | _, _ => []
  end.

Definition pick_num (mask : list bool) (c : numcol) : numcol :=
  match c with
  | NInt xs => NInt (pick mask xs)
  | NFloat xs => NFloat (pick mask xs)
  end.

(** [s >= t], element by element. *)
Definition series_ge (s : series) (t : Z) : list bool :=
  match s_values s with
  | NInt xs => map (fun z => Z.leb t z) xs
  | NFloat xs => map (fun f => fge f t) xs
  end.

(** [s[mask]]: the selected values under their own labels. *)
Definition select (s : series) (mask : list bool) : series :=
  mk_series (pick mask (s_index s)) (pick_num mask (s_values s)).

(** The value a Series holds under a label (the first one, labels being
    unique whenever this is used). *)
Fixpoint find_label {A} (l : label) (idx : list label) (vals : list A)
  : option A :=
  match idx, vals with
  | k :: idx', v :: vals' =>
      if label_eqb k l then Some v else find_label l idx' vals'
  | _, _ => None
  end.

Fixpoint all_some {A} (xs : list (option A)) : option (list A) :=
  match xs with
  | [] => Some []
  | Some x :: xs' =>
      match all_some xs' with Some ys => Some (x :: ys) | None => None end
  | None :: _ => None
  end.

(** [s.reindex(target)] for a Series with unique labels: a label the Series
    lacks gets NaN, which turns an int64 Series into float64. *)
Definition reindex (s : series) (target : list label) : numcol :=
  match s_values s with
  | NInt xs =>
      let found := map (fun l => find_label l (s_index s) xs) target in
      match all_some found with
      | Some ys => NInt ys
      | None =>
          NFloat (map (fun o => match o with Some z => of_int z | None => NaN end)
                      found)
      end
  | NFloat xs =>
      NFloat (map (fun l => match find_label l (s_index s) xs with
                            | Some f => f
                            | None => NaN
                            end) target)
  end.

(** How a Series is fitted to a frame before it becomes a column: taken as
    it is when its index equals the frame's, reindexed otherwise, which
    pandas refuses when the Series has a repeated label. *)
Definition reindex_for_setitem (s : series) (target : list label)
  : exn + numcol :=
  if index_eqb (s_index s) target then inr (s_values s)
  else if has_dup (s_index s) then
    inl (ValueError "cannot reindex on an axis with duplicate labels")
  else inr (reindex s target).

Definition zip_with {A B C} (f : A -> B -> C) (xs : list A) (ys : list B)
  : list C :=
  map (fun p => f (fst p) (snd p)) (combine xs ys).
Arguments zip_with {A B C} f xs ys : simpl never.

(** [a.add(b)] with the default [fill_value=None], for two columns of one
    frame: their indexes are the same, so the values are added position by
    position, and a NaN on either side gives NaN. *)
Definition series_add (a b : series) : series :=
  mk_series (s_index a)
    match s_values a, s_values b with
    | NInt xs, NInt ys => NInt (zip_with Z.add xs ys)
    | x, y => NFloat (zip_with fadd (to_floats x) (to_floats y))
    end.

(** [a / b] for two columns of one frame: true division, position by
    position. *)
Definition series_div (a b : series) : series :=
  mk_series (s_index a)
    (NFloat (zip_with fdiv (to_floats (s_values a)) (to_floats (s_values b)))).

(** [s.astype('float')]. *)
Definition astype_float (s : series) : series :=
  mk_series (s_index s) (NFloat (to_floats (s_values s))).

(** The rows of the key columns: one label per row, one cell per key. *)
Definition key_rows (n : nat) (cols : list (list cell)) : list label :=
  fold_right (fun col acc => zip_with cons col acc) (repeat [] n) cols.

(** Sum of the values whose key is [k]. *)
Definition group_total (k : label) (keys : list label) (vals : list fval)
  : fval :=
  nansum (pick (map (label_eqb k) keys) vals).

(** [groupby(keys).col.sum()]: one entry per distinct key, rows with a
    missing key cell left out.  pandas orders the entries by key; the only
    use made of the result is a lookup by key. *)
Definition grouped_sum (keys : list label) (vals : list fval)
  : list (label * fval) :=
  map (fun k => (k, group_total k keys vals))
      (dedup (filter (fun k => negb (label_missing k)) keys)).

Fixpoint lookup_group (l : label) (s : list (label * fval)) : option fval :=
  match s with
  | [] => None
  | (k, v) :: s' => if label_eqb k l then Some v else lookup_group l s'
  end.

(** The column a left join on the index adds: the right-hand value under
    each row's label, NaN where there is none. *)
Definition joined (idx : list label) (s : list (label * fval)) : list fval :=
  map (fun l => match lookup_group l s with Some v => v | None => NaN end) idx.

Fixpoint lookup_cols (names : list string) (cols : list (string * column))
  : exn + list (list cell) :=
  match names with
  | [] => inr []
  | n :: names' =>
      match lookup_col n cols with
      | None => inl (KeyError n)
      | Some c =>
          match lookup_cols names' cols with
          | inl e => inl e
          | inr cs => inr (col_cells c :: cs)
          end
      end
  end.

(** ** The operations on the store *)

(** [sj.name] read as a numeric Series.  Only int64 and float64 columns are
    followed through the arithmetic; for a column of another dtype the
    TypeError stands for the comparison or addition that fails on a string
    cell, and nothing below relies on it. *)
Definition attr (r : ref) (name : string) : M series :=
  df <- deref r ;;
  match lookup_col name (columns df) with
  | None => raise (AttributeError name)
  | Some (Num c) => ret (mk_series (index df) c)
  | Some _ => raise TypeError
  end.

(** [sj[name]] read as a numeric Series. *)
Definition getitem (r : ref) (name : string) : M series :=
  df <- deref r ;;
  match lookup_col name (columns df) with
  | None => raise (KeyError name)
  | Some (Num c) => ret (mk_series (index df) c)
  | Some _ => raise TypeError
  end.

(** [sj[name] = s] and, for an existing column, [sj.name = s]. *)
Definition setitem (r : ref) (name : string) (s : series) : M unit :=
  df <- deref r ;;
  c <- lift (reindex_for_setitem s (index df)) ;;
  put r (mk_frame (index df) (set_col name (Num c) (columns df))).

(** [sj.groupby(by).name.sum()]. *)
Definition groupby_sum (r : ref) (by_ : list string) (name : string)
  : M (list (label * fval)) :=
  df <- deref r ;;
  keys <- lift (lookup_cols by_ (columns df)) ;;
  s <- attr r name ;;
  ret (grouped_sum (key_rows (length (index df)) keys)
                   (to_floats (s_values s))).

(** [sj.set_index(by, inplace=True, drop=False)]. *)
Definition set_index (r : ref) (by_ : list string) : M unit :=
  df <- deref r ;;
  keys <- lift (lookup_cols by_ (columns df)) ;;
  put r (mk_frame (key_rows (length (index df)) keys) (columns df)).

(** [sj.join(s)] for a Series named [name] with unique labels: a left join
    on the index, hence a new frame with the rows of [sj] in their order
    and one more column.  Without suffixes pandas refuses a name the frame
    already has; its message goes on with the names that overlap. *)
Definition join (r : ref) (name : string) (s : list (label * fval)) : M ref :=
  df <- deref r ;;
  if has_col name df then
    raise (ValueError "columns overlap but no suffix specified")
  else
    alloc (mk_frame (index df)
             (columns df ++ [(name, Num (NFloat (joined (index df) s)))])).

(** [sj.reset_index(inplace=True, drop=True)]. *)
Definition reset_index (r : ref) : M unit :=
  df <- deref r ;;
  put r (mk_frame (range_index (length (index df))) (columns df)).

Fixpoint for_each {A S} (xs : list A) (body : A -> S -> M S) (s : S) : M S :=
  match xs with
  | [] => ret s
  | x :: xs' => s' <- body x s ;; for_each xs' body s'
  end.

(** ** The module *)

Definition COLUMN_NAMES : list string :=
  ["chrom"; "intron_start"; "intron_stop"; "strand";
   "intron_motif"; "annotated";
   "unique_junction_reads"; "multimap_junction_reads";
   "max_overhang"].

(** [v == k] for a cell [v] and an integer literal [k], as Python compares
    them: a number by its value, a bool as 0 or 1, a string or None never
    equal to a number. *)
Definition py_eq (v : cell) (k : Z) : bool :=
  match v with
  | CInt z => Z.eqb z k
  | CFloat (Fin q) => Qeq_bool q (inject_Z k)
  | CFloat _ => false
  | CObj _ => false
  | CBool b => Z.eqb (Z.b2z b) k
  end.

(** A function that reaches its end returns None. *)
Definition int_to_intron_motif (n : cell) : option string :=
  if py_eq n 0 then Some "non-canonical"
  else if py_eq n 1 then Some "GT/AG"
  else if py_eq n 2 then Some "CT/AC"
  else if py_eq n 3 then Some "GC/AG"
  else if py_eq n 4 then Some "CT/GC"
  else if py_eq n 5 then Some "AT/AC"
  else if py_eq n 6 then Some "GT/AT"
  else None.

(** [bool(v)]. *)
Definition py_bool (v : cell) : bool :=
  match v with
  | CInt z => negb (Z.eqb z 0)
  | CFloat (Fin q) => negb (Qeq_bool q 0)
  | CFloat _ => true
  | CObj (Some s) => negb (String.eqb s "")
  | CObj None => false
  | CBool b => b
  end.

(** The two statements that follow [pd.read_table]; [parsed] is the frame
    that call returned, with the columns of [COLUMN_NAMES] and the default
    index.  [Series.map] calls the function on every cell and keeps what it
    returns, None included. *)
Definition read_sj_out_tab (parsed : frame) : exn + frame :=
  match lookup_col "intron_motif" (columns parsed) with
  | None => inl (AttributeError "intron_motif")
  | Some motif =>
      let cols :=
        set_col "intron_motif"
          (ObjCol (map int_to_intron_motif (col_cells motif)))
          (columns parsed) in
      match lookup_col "annotated" cols with
      | None => inl (AttributeError "annotated")
      | Some annotated =>
          inr (mk_frame (index parsed)
                 (set_col "annotated"
                    (BoolCol (map py_bool (col_cells annotated))) cols))
      end
  end.

Definition psi5_groupby : list string := ["chrom"; "intron_start"].
Definition psi3_groupby : list string := ["chrom"; "intron_stop"].

(** A dict is iterated in the order its keys were written. *)
Definition groupbys : list (string * list string) :=
  [("psi5", psi5_groupby); ("psi3", psi3_groupby)].

Definition get_psis_body (item : string * list string) (sj : ref) : M ref :=
  let '(name, groupby) := item in
  let denominator := (name ++ "_denominator")%string in
  s <- groupby_sum sj groupby "total_filtered_reads" ;;
  set_index sj groupby ;;;
  sj <- join sj denominator s ;;
  total <- attr sj "total_filtered_reads" ;;
  denom <- getitem sj denominator ;;
  setitem sj name (series_div total denom) ;;;
  reset_index sj ;;;
  ret sj.

Definition get_psis (sj : ref) (min_unique min_multimap : Z) : M ref :=
  multimap <- attr sj "multimap_junction_reads" ;;
  multimap' <- attr sj "multimap_junction_reads" ;;
  setitem sj "multimap_junction_reads_filtered"
    (select multimap (series_ge multimap' min_multimap)) ;;;
  unique <- attr sj "unique_junction_reads" ;;
  unique' <- attr sj "unique_junction_reads" ;;
  setitem sj "unique_junction_reads_filtered"
    (select unique (series_ge unique' min_unique)) ;;;
  multimap_filtered <- attr sj "multimap_junction_reads_filtered" ;;
  unique_filtered <- attr sj "unique_junction_reads_filtered" ;;
  setitem sj "total_filtered_reads"
    (series_add multimap_filtered unique_filtered) ;;;
  total <- attr sj "total_filtered_reads" ;;
  setitem sj "total_filtered_reads" (astype_float total) ;;;
  for_each groupbys get_psis_body sj.

(** The table of the docstring. *)
Definition docstring_sj : frame :=
  mk_frame (range_index 3)
    [("chrom", ObjCol [Some "chr1"; Some "chr1"; Some "chr1"]);
     ("intron_start", Num (NInt [100; 100; 130]));
     ("intron_stop", Num (NInt [100; 200; 200]));
     ("multimap_junction_reads", Num (NInt [0; 0; 0]));
     ("unique_junction_reads", Num (NInt [90; 10; 40]))].


(** ** Closed forms used in the statements *)

(** A column after [c[c >= t]] has been assigned back: the values that
    fail the test are NaN, and an int64 column stays int64 only when no
    value fails. *)
Definition masked (mask : list bool) (c : numcol) : numcol :=
  match c with
  | NInt xs =>
      if forallb (fun b : bool => b) mask then NInt xs
      else NFloat (zip_with (fun (b : bool) z => if b then of_int z else NaN)
                            mask xs)
  | NFloat xs =>
      NFloat (zip_with (fun (b : bool) f => if b then f else NaN) mask xs)
  end.

(** The same, value by value, on floats. *)
Definition keep (t : Z) (f : fval) : fval := if fge f t then f else NaN.

(** The column [total_filtered_reads]. *)
Definition total_reads (min_unique min_multimap : Z) (unique multimap : numcol)
  : list fval :=
  zip_with fadd (map (keep min_multimap) (to_floats multimap))
                (map (keep min_unique) (to_floats unique)).

(** The denominators of one grouping and the scores they give. *)
Definition denominators (keys : list label) (tot : numcol) : list fval :=
  joined keys (grouped_sum keys (to_floats tot)).

Definition scores (keys : list label) (tot : numcol) : list fval :=
  zip_with fdiv (to_floats tot) (denominators keys tot).

(** The frame one pass of the loop leaves under the new reference. *)
Definition body_frame (name : string) (keys : list label) (tot : numcol)
  (f : frame) : frame :=
  mk_frame (range_index (length keys))
    (set_col name (Num (NFloat (scores keys tot)))
       (columns f ++
          [((name ++ "_denominator")%string,
            Num (NFloat (denominators keys tot)))])).

(** ** Well-formed arguments *)

(** Every column of a frame has one value per row. *)
Definition well_shaped (df : frame) : bool :=
  forallb (fun nc => Nat.eqb (col_length (snd nc)) (length (index df)))
          (columns df).

Definition is_numeric (name : string) (df : frame) : bool :=
  match lookup_col name (columns df) with
  | Some (Num _) => true
  | _ => false
  end.

(** What the first five statements of [get_psis] need: distinct row labels
    and the two read counts as numbers. *)
Definition countable (df : frame) : bool :=
  well_shaped df && negb (has_dup (index df))
  && is_numeric "multimap_junction_reads" df
  && is_numeric "unique_junction_reads" df.

(** A table [get_psis] accepts: the above, the three key columns, and no
    column yet under the name of a denominator. *)
Definition sj_table (df : frame) : bool :=
  countable df
  && has_col "chrom" df && has_col "intron_start" df
  && has_col "intron_stop" df
  && negb (has_col "psi5_denominator" df)
  && negb (has_col "psi3_denominator" df).

(** The names [get_psis] writes. *)
Definition filtered_names : list string :=
  ["multimap_junction_reads_filtered"; "unique_junction_reads_filtered";
   "total_filtered_reads"].

Definition derived_names : list string :=
  filtered_names ++ ["psi5_denominator"; "psi5"; "psi3_denominator"; "psi3"].

(** The values of a numeric column, as floats. *)
Definition floats_of (name : string) (df : frame) : list fval :=
  match lookup_col name (columns df) with
  | Some (Num c) => to_floats c
  | _ => []
  end.

(** The key of every row for a grouping. *)
Definition keys_of (by_ : list string) (df : frame) : list label :=
  match lookup_cols by_ (columns df) with
  | inr cs => key_rows (length (index df)) cs
  | inl _ => []
  end.




(** The frame of the caller once the three filtered columns are written. *)
Definition filtered_frame (min_unique min_multimap : Z) (unique multimap : numcol)
  (df : frame) : frame :=
  let idx := index df in
  mk_frame idx
    (set_col "total_filtered_reads"
       (Num (NFloat (total_reads min_unique min_multimap unique multimap)))
       (set_col "unique_junction_reads_filtered"
          (Num (masked (series_ge (mk_series idx unique) min_unique) unique))
          (set_col "multimap_junction_reads_filtered"
             (Num (masked (series_ge (mk_series idx multimap) min_multimap)
                          multimap))
             (columns df)))).

(** The frames a successful call leaves: the caller's, re-indexed by the
    keys of the first grouping, and the one returned. *)
Definition caller_frame (min_unique min_multimap : Z) (unique multimap : numcol)
  (k5 : list (list cell)) (df : frame) : frame :=
  mk_frame (key_rows (length (index df)) k5)
           (columns (filtered_frame min_unique min_multimap unique multimap df)).

Definition psi5_frame (min_unique min_multimap : Z) (unique multimap : numcol)
  (k5 : list (list cell)) (df : frame) : frame :=
  body_frame "psi5" (key_rows (length (index df)) k5)
    (NFloat (total_reads min_unique min_multimap unique multimap))
    (filtered_frame min_unique min_multimap unique multimap df).

Definition result_frame (min_unique min_multimap : Z) (unique multimap : numcol)
  (k5 k3 : list (list cell)) (df : frame) : frame :=
  body_frame "psi3" (key_rows (length (index df)) k3)
    (NFloat (total_reads min_unique min_multimap unique multimap))
    (psi5_frame min_unique min_multimap unique multimap k5 df).



(** A call on a table nothing else refers to: the frame returned, or the
    error raised. *)
Definition call_get_psis (df : frame) (min_unique min_multimap : Z)
  : exn + frame :=
  match get_psis 0%nat min_unique min_multimap [df] with
  | (inr r, h) =>
      match nth_error h r with
      | Some out => inr out
      | None => inl (ValueError "dangling reference")
      end
  | (inl e, _) => inl e
  end.



(** One line of a file whose motif code is 7. *)
Definition motif7_table : frame :=
  mk_frame (range_index 1)
    [("chrom", ObjCol [Some "chr1"]);
     ("intron_start", Num (NInt [100]));
     ("intron_stop", Num (NInt [200]));
     ("strand", Num (NInt [1]));
     ("intron_motif", Num (NInt [7]));
     ("annotated", Num (NInt [1]));
     ("unique_junction_reads", Num (NInt [12]));
     ("multimap_junction_reads", Num (NInt [0]));
     ("max_overhang", Num (NInt [30]))].

(** Every row of the group of [k] has a missing total. *)
Definition all_missing_group (keys : list label) (tot : list fval) (k : label)
  : Prop :=
  forall j k', nth_error keys j = Some k' -> label_eqb k k' = true ->
               nth_error tot j = Some NaN.


(** Two junctions of one donor and one acceptor without a single read. *)
Definition no_reads_sj : frame :=
  mk_frame (range_index 2)
    [("chrom", ObjCol [Some "chr2"; Some "chr2"]);
     ("intron_start", Num (NInt [500; 500]));
     ("intron_stop", Num (NInt [900; 900]));
     ("multimap_junction_reads", Num (NInt [0; 0]));
     ("unique_junction_reads", Num (NInt [0; 0]))].

(** A table no aligner writes: one of its read counts is negative. *)
Definition negative_sj : frame :=
  mk_frame (range_index 2)
    [("chrom", ObjCol [Some "chr2"; Some "chr2"]);
     ("intron_start", Num (NInt [500; 500]));
     ("intron_stop", Num (NInt [900; 900]));
     ("multimap_junction_reads", Num (NInt [0; 0]));
     ("unique_junction_reads", Num (NInt [-5; 5]))].

(** ** Python strings and [int]

    A [string] stands for a Python str whose code points are all below
    256, one character per code point. *)

Definition chars (s : string) : list ascii := list_ascii_of_string s.

(** [s.replace(c, '')] for a one-character [c]. *)
Fixpoint remove_char (c : ascii) (s : string) : string :=
  match s with
  | EmptyString => EmptyString
  | String a s' =>
      if Ascii.eqb a c then remove_char c s' else String a (remove_char c s')
  end.

(** [s.split(sep)] for a one-character [sep]: one piece more than there
    are separators, empty pieces included. *)
Fixpoint split (sep : ascii) (s : string) : list string :=
  match s with
  | EmptyString => [EmptyString]
  | String a s' =>
      if Ascii.eqb a sep then EmptyString :: split sep s'
      else match split sep s' with
           | piece :: pieces => String a piece :: pieces
           | [] => [String a EmptyString]
           end
  end.

Fixpoint has_char (c : ascii) (s : string) : bool :=
  match s with
  | EmptyString => false
  | String a s' => Ascii.eqb a c || has_char c s'
  end.

(** The white space [int] skips at both ends of its argument: tab to
    carriage return and the space, and NEL and the no-break space among
    the code points from 128 on. *)
Definition is_space (c : ascii) : bool :=
  let n := nat_of_ascii c in
  ((9 <=? n) && (n <=? 13) || (n =? 32) || (n =? 133) || (n =? 160))%nat.

Definition is_digit (c : ascii) : bool :=
  let n := nat_of_ascii c in ((48 <=? n) && (n <=? 57))%nat.

Fixpoint drop_spaces (cs : list ascii) : list ascii :=
  match cs with
  | c :: cs' => if is_space c then drop_spaces cs' else cs
  | [] => []
  end.

Definition strip (cs : list ascii) : list ascii :=
  List.rev (drop_spaces (List.rev (drop_spaces cs))).

(** Digits, with single underscores allowed between two of them. *)
Fixpoint digits_ok (cs : list ascii) (after_digit : bool) : bool :=
  match cs with
  | [] => after_digit
  | c :: cs' =>
      if is_digit c then digits_ok cs' true
      else if Ascii.eqb c "_" then after_digit && digits_ok cs' false
      else false
  end.

(** The number of digits from which [int] refuses to convert. *)
Definition max_str_digits : nat := 4300.

(** [int(s)]: white space, an optional sign, decimal digits, white space.
    The messages of the two errors go on with the text. *)
Definition py_int (s : string) : exn + Z :=
  let body := strip (chars s) in
  let '(negative, body) :=
    match body with
    | c :: rest =>
        if Ascii.eqb c "-" then (true, rest)
        else if Ascii.eqb c "+" then (false, rest)
        else (false, body)
    | [] => (false, body)
    end in
  if digits_ok body false then
    let digits := filter is_digit body in
    if (max_str_digits <? length digits)%nat then
      inl (ValueError "Exceeds the limit (4300 digits) for integer string conversion")
    else
      match DecimalString.NilEmpty.uint_of_string (string_of_list_ascii digits) with
      | Some d =>
          let n := Z.of_N (N.of_uint d) in
          inr (if negative then - n else n)
      | None => inl (ValueError "invalid literal for int() with base 10")
      end
  else inl (ValueError "invalid literal for int() with base 10").

(** [str(n)] for a number that is not negative. *)
Definition decimal (n : N) : string :=
  DecimalString.NilZero.string_of_uint (N.to_uint n).

(** [a, b = pieces]. *)
Definition unpack2 {A} (pieces : list A) : exn + (A * A) :=
  match pieces with
  | [a; b] => inr (a, b)
  | [] => inl (ValueError "not enough values to unpack (expected 2, got 0)")
  | [_] => inl (ValueError "not enough values to unpack (expected 2, got 1)")
  | _ => inl (ValueError "too many values to unpack (expected 2)")
  end.

(** [a, b = map(int, pieces)]: [map] is lazy, so [int] runs on a piece when
    the assignment asks for it, and it asks for a third one to see that
    there is none. *)
Definition unpack2_ints (pieces : list string) : exn + (Z * Z) :=
  match pieces with
  | [] => inl (ValueError "not enough values to unpack (expected 2, got 0)")
  | a :: rest =>
      match py_int a with
      | inl e => inl e
      | inr x =>
          match rest with
          | [] =>
              inl (ValueError "not enough values to unpack (expected 2, got 1)")
          | b :: rest' =>
              match py_int b with
              | inl e => inl e
              | inr y =>
                  match rest' with
                  | [] => inr (x, y)
                  | c :: _ =>
                      match py_int c with
                      | inl e => inl e
                      | inr _ =>
                          inl (ValueError "too many values to unpack (expected 2)")
                      end
                  end
              end
          end
      end
  end.

(** ** Boolean Series *)

Record bool_series : Type := mk_bools {
  b_index : list label;
  b_values : list bool
}.

(** [column == text]: a cell that is not a string is not equal to one. *)
Definition eq_text (c : column) (text : string) : list bool :=
  match c with
  | ObjCol xs =>
      map (fun o => match o with
                    | Some s => String.eqb s text
                    | None => false
                    end) xs
  | Num (NInt xs) => map (fun _ => false) xs
  | Num (NFloat xs) => map (fun _ => false) xs
  | BoolCol xs => map (fun _ => false) xs
  end.

(** [t < a] and [a < t] for an integer [t] and a float [a]; NaN compares
    False. *)
Definition int_below (t : Z) (a : fval) : bool :=
  match a with
  | NaN | NInf => false
  | PInf => true
  | Fin q => negb (Qle_bool q (inject_Z t))
  end.

Definition below_int (a : fval) (t : Z) : bool :=
  match a with
  | NaN | PInf => false
  | NInf => true
  | Fin q => negb (Qle_bool (inject_Z t) q)
  end.

(** [t < s], which Python hands over to the Series as [s > t]. *)
Definition series_above (t : Z) (s : series) : bool_series :=
  mk_bools (s_index s)
    match s_values s with
    | NInt xs => map (fun z => Z.ltb t z) xs
    | NFloat xs => map (int_below t) xs
    end.

(** [s < t]. *)
Definition series_below (s : series) (t : Z) : bool_series :=
  mk_bools (s_index s)
    match s_values s with
    | NInt xs => map (fun z => Z.ltb z t) xs
    | NFloat xs => map (fun f => below_int f t) xs
    end.

(** [a & b] for two Series over the rows of one frame. *)
Definition series_and (a b : bool_series) : bool_series :=
  mk_bools (b_index a) (zip_with andb (b_values a) (b_values b)).

(** [sj.name == text], for a column of any dtype. *)
Definition attr_eq (r : ref) (name : string) (text : string) : M bool_series :=
  df <- deref r ;;
  match lookup_col name (columns df) with
  | None => raise (AttributeError name)
  | Some c => ret (mk_bools (index df) (eq_text c text))
  end.

(** The first two statements: the three parts of ['chr1:100-200']. *)
Definition parse_locus (chr_start_stop : string) : exn + (string * Z * Z) :=
  match unpack2 (split ":" (remove_char "," chr_start_stop)) with
  | inl e => inl e
  | inr (chrom, startstop) =>
      match unpack2_ints (split "-" startstop) with
      | inl e => inl e
      | inr (start, stop) => inr (chrom, start, stop)
      end
  end.

Definition chr_start_stop_to_sj_ind (chr_start_stop : string) (sj : ref)
  : M bool_series :=
  locus <- lift (parse_locus chr_start_stop) ;;
  let '(chrom, start, stop) := locus in
  on_chrom <- attr_eq sj "chrom" chrom ;;
  starts <- attr sj "intron_start" ;;
  let inside := series_and on_chrom (series_above start starts) in
  stops <- attr sj "intron_stop" ;;
  ret (series_and inside (series_below stops stop)).

(** ['chrom:start-stop'] written out. *)
Definition locus_text (chrom : string) (start stop : N) : string :=
  (chrom ++ ":" ++ decimal start ++ "-" ++ decimal stop)%string.

(** How many times a character occurs. *)
Fixpoint count_char (c : ascii) (s : string) : nat :=
  match s with
  | EmptyString => 0
  | String a s' => (if Ascii.eqb a c then 1 else 0) + count_char c s'
  end.

(** A table with two junctions on chr1 and one on chr2. *)
Definition three_junctions : frame :=
  mk_frame (range_index 3)
    [("chrom", ObjCol [Some "chr1"; Some "chr1"; Some "chr2"]);
     ("intron_start", Num (NInt [100; 150; 150]));
     ("intron_stop", Num (NInt [200; 180; 180]));
     ("multimap_junction_reads", Num (NInt [10; 0; 12]));
     ("unique_junction_reads", Num (NInt [5; 40; 4]))].

(** The values of the selector for a locus already read, or the error the
    three column accesses end in. *)
Definition locus_mask (chrom : string) (start stop : Z) (f : frame)
  : exn + list bool :=
  match lookup_col "chrom" (columns f) with
  | None => inl (AttributeError "chrom")
  | Some c =>
      match lookup_col "intron_start" (columns f) with
      | None => inl (AttributeError "intron_start")
      | Some (Num s) =>
          match lookup_col "intron_stop" (columns f) with
          | None => inl (AttributeError "intron_stop")
          | Some (Num e) =>
              inr (zip_with andb
                     (zip_with andb (eq_text c chrom)
                        (b_values (series_above start (mk_series (index f) s))))
                     (b_values (series_below (mk_series (index f) e) stop)))
          | Some _ => inl TypeError
          end
      | Some _ => inl TypeError
      end
  end.

(** What a call of [chr_start_stop_to_sj_ind] gives, the index apart. *)
Definition selected (outcome : (exn + bool_series) * store) : exn + list bool :=
  match fst outcome with
  | inl e => inl e
  | inr m => inr (b_values m)
  end.





(** No other row than [i] has the key [k]. *)
Definition alone_in_group (keys : list label) (i : nat) (k : label) : Prop :=
  forall j k', j <> i -> nth_error keys j = Some k' -> label_eqb k k' = false.

(** The table of the docstring with a strand, a motif and other row
    labels. *)
Definition docstring_sj_stranded : frame :=
  mk_frame [[CInt 7]; [CInt 8]; [CInt 9]]
    [("chrom", ObjCol [Some "chr1"; Some "chr1"; Some "chr1"]);
     ("intron_start", Num (NInt [100; 100; 130]));
     ("intron_stop", Num (NInt [100; 200; 200]));
     ("strand", Num (NInt [1; 2; 1]));
     ("intron_motif", ObjCol [Some "GT/AG"; None; Some "CT/AC"]);
     ("multimap_junction_reads", Num (NInt [0; 0; 0]));
     ("unique_junction_reads", Num (NInt [90; 10; 40]))].

(** The table of the docstring without its chromosomes. *)
Definition no_chrom_sj : frame :=
  mk_frame (range_index 3)
    [("intron_start", Num (NInt [100; 100; 130]));
     ("intron_stop", Num (NInt [100; 200; 200]));
     ("multimap_junction_reads", Num (NInt [0; 0; 0]));
     ("unique_junction_reads", Num (NInt [90; 10; 40]))].

(** Two files put one after the other with their own row numbers: the
    labels 0 and 1 come twice. *)
Definition concatenated_sj : frame :=
  mk_frame [[CInt 0]; [CInt 1]; [CInt 0]; [CInt 1]]
    [("chrom", ObjCol [Some "chr1"; Some "chr1"; Some "chr1"; Some "chr1"]);
     ("intron_start", Num (NInt [100; 100; 130; 300]));
     ("intron_stop", Num (NInt [100; 200; 200; 400]));
     ("multimap_junction_reads", Num (NInt [12; 0; 15; 0]));
     ("unique_junction_reads", Num (NInt [90; 10; 40; 8]))].

(** What [pd.read_table] returns for two lines of a file. *)
Definition parsed_two_lines : frame :=
  mk_frame (range_index 2)
    [("chrom", ObjCol [Some "chr1"; Some "chr1"]);
     ("intron_start", Num (NInt [100; 100]));
     ("intron_stop", Num (NInt [200; 300]));
     ("strand", Num (NInt [1; 1]));
     ("intron_motif", Num (NInt [1; 0]));
     ("annotated", Num (NInt [1; 0]));
     ("unique_junction_reads", Num (NInt [12; 7]));
     ("multimap_junction_reads", Num (NInt [0; 11]));
     ("max_overhang", Num (NInt [30; 25]))].

(** ** Equality of labels *)

Lemma feqb_refl (a : fval) : feqb a a = true.
Proof. destruct a; simpl; auto. apply Qeq_bool_iff. reflexivity. Qed.

Lemma feqb_sym (a b : fval) : feqb a b = feqb b a.
Proof.
  destruct a, b; simpl; auto.
  destruct (Qeq_bool q q0) eqn:E1, (Qeq_bool q0 q) eqn:E2; auto.
  - apply Qeq_bool_iff in E1. symmetry in E1. apply Qeq_bool_iff in E1. congruence.
  - apply Qeq_bool_iff in E2. symmetry in E2. apply Qeq_bool_iff in E2. congruence.
Qed.

Lemma feqb_trans (a b c : fval) :
  feqb a b = true -> feqb b c = true -> feqb a c = true.
Proof.
  destruct a, b, c; simpl; auto; try discriminate.
  intros H1 H2. apply Qeq_bool_iff in H1, H2. apply Qeq_bool_iff.
  now rewrite H1.
Qed.

Lemma cell_eqb_refl (a : cell) : cell_eqb a a = true.
Proof.
  destruct a as [z|f|[s|]|b]; simpl; auto.
  - apply Z.eqb_refl.
  - apply feqb_refl.
  - apply String.eqb_refl.
  - destruct b; reflexivity.
Qed.

Lemma cell_eqb_sym (a b : cell) : cell_eqb a b = cell_eqb b a.
Proof.
  destruct a as [z|f|[s|]|x], b as [z'|f'|[s'|]|y]; simpl; auto.
  - apply Z.eqb_sym.
  - apply feqb_sym.
  - apply String.eqb_sym.
  - destruct x, y; reflexivity.
Qed.

Lemma cell_eqb_trans (a b c : cell) :
  cell_eqb a b = true -> cell_eqb b c = true -> cell_eqb a c = true.
Proof.
  destruct a as [z|f|[s|]|x], b as [z'|f'|[s'|]|y], c as [z''|f''|[s''|]|w];
    simpl; auto; try discriminate.
  - intros H1 H2. apply Z.eqb_eq in H1, H2. apply Z.eqb_eq. congruence.
  - apply feqb_trans.
  - intros H1 H2. apply String.eqb_eq in H1, H2. apply String.eqb_eq. congruence.
  - destruct x, y, w; simpl; auto.
Qed.

Lemma cell_missing_eqb (a b : cell) :
  cell_eqb a b = true -> cell_missing a = cell_missing b.
Proof.
  destruct a as [z|[| | |q]|[s|]|x], b as [z'|[| | |q']|[s'|]|y];
    simpl; auto; discriminate.
Qed.

Lemma label_eqb_refl (a : label) : label_eqb a a = true.
Proof. induction a; simpl; auto. now rewrite cell_eqb_refl. Qed.

Lemma label_eqb_sym (a b : label) : label_eqb a b = label_eqb b a.
Proof.
  revert b. induction a as [|x a IH]; intros [|y b]; simpl; auto.
  now rewrite cell_eqb_sym, IH.
Qed.

Lemma label_eqb_trans (a b c : label) :
  label_eqb a b = true -> label_eqb b c = true -> label_eqb a c = true.
Proof.
  revert b c. induction a as [|x a IH]; intros [|y b] [|z c]; simpl; auto;
    try discriminate.
  intros H1 H2. apply andb_true_iff in H1, H2. apply andb_true_iff.
  destruct H1, H2. split; [eapply cell_eqb_trans | eapply IH]; eauto.
Qed.

Lemma label_missing_eqb (a b : label) :
  label_eqb a b = true -> label_missing a = label_missing b.
Proof.
  revert b. induction a as [|x a IH]; intros [|y b]; simpl; auto;
    try discriminate.
  intros H. apply andb_true_iff in H. destruct H as [H1 H2].
  now rewrite (cell_missing_eqb _ _ H1), (IH _ H2).
Qed.

(** Two equal labels select the same rows. *)
Lemma label_eqb_ext (a b x : label) :
  label_eqb a b = true -> label_eqb a x = label_eqb b x.
Proof.
  intros H. destruct (label_eqb a x) eqn:E1, (label_eqb b x) eqn:E2; auto.
  - rewrite label_eqb_sym in H.
    now rewrite (label_eqb_trans _ _ _ H E1) in E2.
  - now rewrite (label_eqb_trans _ _ _ H E2) in E1.
Qed.

Lemma index_eqb_refl (a : list label) : index_eqb a a = true.
Proof. induction a; simpl; auto. now rewrite label_eqb_refl. Qed.

(** ** Lists, masks and selections *)

Lemma zip_with_length {A B C} (f : A -> B -> C) xs ys :
  length xs = length ys -> length (zip_with f xs ys) = length xs.
Proof.
  intros H. unfold zip_with. rewrite length_map, length_combine. lia.
Qed.

Lemma zip_with_cons {A B C} (f : A -> B -> C) x xs y ys :
  zip_with f (x :: xs) (y :: ys) = f x y :: zip_with f xs ys.
Proof. reflexivity. Qed.

Lemma map_zip_with {A B C D} (g : C -> D) (f : A -> B -> C) xs ys :
  map g (zip_with f xs ys) = zip_with (fun a b => g (f a b)) xs ys.
Proof. unfold zip_with. now rewrite map_map. Qed.

Lemma zip_with_map_l_self {A B C} (f : B -> A -> C) (g : A -> B) xs :
  zip_with f (map g xs) xs = map (fun x => f (g x) x) xs.
Proof. induction xs; simpl; auto. rewrite zip_with_cons. now f_equal. Qed.

Lemma nth_error_zip_with {A B C} (f : A -> B -> C) xs ys i :
  nth_error (zip_with f xs ys) i =
  match nth_error xs i, nth_error ys i with
  | Some x, Some y => Some (f x y)
  | _, _ => None
  end.
Proof.
  revert ys i. induction xs as [|x xs IH]; intros [|y ys] [|i];
    try rewrite zip_with_cons; simpl; auto.
  now destruct (nth_error xs i).
Qed.

Lemma pick_all {A} (mask : list bool) (xs : list A) :
  forallb (fun b : bool => b) mask = true -> length mask = length xs ->
  pick mask xs = xs.
Proof.
  revert xs. induction mask as [|b mask IH]; intros [|x xs]; simpl; auto;
    try discriminate.
  intros H L. apply andb_true_iff in H. destruct H as [-> H].
  f_equal. apply IH; auto.
Qed.

Lemma pick_length_le {A} (mask : list bool) (xs : list A) :
  (length (pick mask xs) <= length xs)%nat.
Proof.
  revert xs. induction mask as [|b mask IH]; intros [|x xs]; simpl; try lia.
  destruct b; simpl; specialize (IH xs); lia.
Qed.

Lemma pick_full {A} (mask : list bool) (xs : list A) :
  length mask = length xs -> length (pick mask xs) = length xs ->
  forallb (fun b : bool => b) mask = true.
Proof.
  revert xs. induction mask as [|b mask IH]; intros [|x xs]; simpl; auto;
    try discriminate.
  intros L H. destruct b; simpl in *.
  - apply (IH xs); lia.
  - pose proof (pick_length_le mask xs). lia.
Qed.

Lemma index_eqb_length (a b : list label) :
  index_eqb a b = true -> length a = length b.
Proof.
  revert b. induction a as [|x a IH]; intros [|y b]; simpl; auto;
    try discriminate.
  intros H. apply andb_true_iff in H. destruct H. f_equal. auto.
Qed.

Lemma mem_label_pick (l : label) (mask : list bool) (idx : list label) :
  mem_label l idx = false -> mem_label l (pick mask idx) = false.
Proof.
  revert idx. induction mask as [|b mask IH]; intros [|k idx]; simpl; auto.
  intros H. apply orb_false_iff in H. destruct H as [H1 H2].
  destruct b; simpl; [rewrite H1|]; simpl; auto.
Qed.

Lemma has_dup_pick (mask : list bool) (idx : list label) :
  has_dup idx = false -> has_dup (pick mask idx) = false.
Proof.
  revert idx. induction mask as [|b mask IH]; intros [|k idx]; simpl; auto.
  intros H. apply orb_false_iff in H. destruct H as [H1 H2].
  destruct b; simpl; auto. now rewrite mem_label_pick, IH.
Qed.

Lemma find_label_absent {A} (l : label) (idx : list label) (vals : list A) :
  mem_label l idx = false -> find_label l idx vals = None.
Proof.
  revert vals. induction idx as [|k idx IH]; intros [|v vals]; simpl; auto.
  intros H. apply orb_false_iff in H. destruct H as [H1 H2].
  rewrite label_eqb_sym, H1. auto.
Qed.

(** Looking the labels of a frame up in a selection of its rows finds the
    selected values and misses the others. *)
Lemma find_label_pick {A} (mask : list bool) (idx : list label)
  (vals : list A) :
  has_dup idx = false -> length mask = length idx ->
  length vals = length idx ->
  map (fun l => find_label l (pick mask idx) (pick mask vals)) idx =
  zip_with (fun (b : bool) v => if b then Some v else None) mask vals.
Proof.
  revert mask vals.
  induction idx as [|k idx IH]; intros [|b mask] [|v vals]; simpl; auto;
    try discriminate.
  intros D L1 L2. apply orb_false_iff in D. destruct D as [D1 D2].
  rewrite zip_with_cons. f_equal.
  - destruct b; simpl.
    + now rewrite label_eqb_refl.
    + apply find_label_absent. now apply mem_label_pick.
  - rewrite <- (IH mask vals) by (auto; lia).
    apply map_ext_in. intros l Hl. destruct b; simpl; auto.
    destruct (label_eqb k l) eqn:E; auto.
    exfalso. unfold mem_label in D1.
    assert (existsb (label_eqb k) idx = true) as X
        by (apply existsb_exists; eauto).
    congruence.
Qed.

Lemma all_some_mask {A} (mask : list bool) (xs : list A) :
  forallb (fun b : bool => b) mask = false -> length mask = length xs ->
  all_some (zip_with (fun (b : bool) v => if b then Some v else None) mask xs)
  = None.
Proof.
  revert xs. induction mask as [|b mask IH]; intros [|x xs]; try discriminate.
  intros H L. rewrite zip_with_cons. destruct b; cbn in *; auto.
  rewrite IH; auto.
Qed.

Lemma zip_with_all_true {A} (mask : list bool) (xs : list A) (d : A) :
  forallb (fun b : bool => b) mask = true -> length mask = length xs ->
  zip_with (fun (b : bool) v => if b then v else d) mask xs = xs.
Proof.
  revert xs. induction mask as [|b mask IH]; intros [|x xs]; try discriminate;
    auto.
  cbn. intros H L. apply andb_true_iff in H. destruct H as [-> H].
  rewrite zip_with_cons. f_equal. apply IH; auto.
Qed.

Lemma series_ge_length (idx : list label) (c : numcol) (t : Z) :
  length (series_ge (mk_series idx c) t) = num_length c.
Proof. destruct c; simpl; apply length_map. Qed.

(** Assigning a selection of a column back to its frame. *)
Lemma reindex_select (idx : list label) (c : numcol) (mask : list bool) :
  has_dup idx = false -> num_length c = length idx ->
  length mask = length idx ->
  reindex_for_setitem (select (mk_series idx c) mask) idx
  = inr (masked mask c).
Proof.
  intros D Lc Lm. unfold reindex_for_setitem, select. simpl.
  destruct (index_eqb (pick mask idx) idx) eqn:E.
  - apply index_eqb_length in E.
    pose proof (pick_full mask idx Lm E) as All.
    destruct c as [xs|xs]; simpl in *; rewrite ?All.
    + rewrite pick_all by congruence. reflexivity.
    + rewrite pick_all by congruence.
      rewrite zip_with_all_true by congruence. reflexivity.
  - assert (forallb (fun b : bool => b) mask = false) as NotAll.
    { destruct (forallb (fun b : bool => b) mask) eqn:F; auto.
      rewrite pick_all in E by auto. now rewrite index_eqb_refl in E. }
    rewrite has_dup_pick by auto.
    destruct c as [xs|xs]; unfold reindex; simpl in *; rewrite ?NotAll.
    + rewrite find_label_pick by auto.
      rewrite all_some_mask by (auto; congruence).
      rewrite map_zip_with. do 2 f_equal.
      unfold zip_with. apply map_ext. intros [[|] z]; reflexivity.
    + f_equal. f_equal.
      rewrite <- (map_map (fun l => find_label l (pick mask idx) (pick mask xs))
                    (fun o => match o with Some f => f | None => NaN end)).
      rewrite find_label_pick by auto. rewrite map_zip_with.
      unfold zip_with. apply map_ext. intros [[|] f]; reflexivity.
Qed.

(** ** Integers read as floats *)

Lemma Qred_inject_Z (z : Z) : Qred (inject_Z z) = inject_Z z.
Proof.
  unfold Qred, inject_Z.
  pose proof (Z.ggcd_gcd z 1) as G.
  pose proof (Z.ggcd_correct_divisors z 1) as C.
  destruct (Z.ggcd z 1) as [g [a b]]. simpl in *.
  rewrite Z.gcd_1_r in G. subst g. destruct C as [-> C].
  assert (b = 1) as -> by lia.
  f_equal. lia.
Qed.

Lemma fadd_of_int (x y : Z) : fadd (of_int x) (of_int y) = of_int (x + y).
Proof.
  unfold of_int, fadd. f_equal.
  rewrite <- (Qred_inject_Z (x + y)). apply Qred_complete.
  unfold Qeq, inject_Z. simpl. lia.
Qed.

Lemma fge_of_int (z t : Z) : fge (of_int z) t = Z.leb t z.
Proof.
  unfold of_int, fge, Qle_bool, inject_Z. simpl. now rewrite !Z.mul_1_r.
Qed.

(** The filtered column, read as floats, keeps a value or puts NaN. *)
Lemma to_floats_masked (idx : list label) (c : numcol) (t : Z) :
  to_floats (masked (series_ge (mk_series idx c) t) c)
  = map (keep t) (to_floats c).
Proof.
  destruct c as [xs|xs]; unfold series_ge; simpl.
  - destruct (forallb (fun b : bool => b) (map (fun z => Z.leb t z) xs)) eqn:F;
      simpl.
    + rewrite map_map. apply map_ext_in. intros z Hz.
      rewrite forallb_forall in F.
      unfold keep. rewrite fge_of_int.
      rewrite (F (Z.leb t z)); auto. apply in_map_iff. eauto.
    + rewrite zip_with_map_l_self, map_map. apply map_ext. intros z.
      unfold keep. now rewrite fge_of_int.
  - rewrite zip_with_map_l_self. apply map_ext. intros f. reflexivity.
Qed.

Lemma to_floats_length (c : numcol) : length (to_floats c) = num_length c.
Proof. destruct c; simpl; auto. apply length_map. Qed.

Lemma masked_length (mask : list bool) (c : numcol) :
  length mask = num_length c -> num_length (masked mask c) = num_length c.
Proof.
  destruct c as [xs|xs]; simpl; intros L.
  - destruct (forallb _ mask); simpl; auto.
    rewrite zip_with_length; auto.
  - rewrite zip_with_length; auto.
Qed.

(** The sum of the two filtered columns, read as floats. *)
Lemma of_int_zip_with (xs ys : list Z) :
  map of_int (zip_with Z.add xs ys)
  = zip_with fadd (map of_int xs) (map of_int ys).
Proof.
  revert ys. induction xs as [|x xs IH]; intros [|y ys]; auto.
  cbn [map]. rewrite !zip_with_cons. cbn [map].
  now rewrite fadd_of_int, IH.
Qed.

Lemma to_floats_add (i j : list label) (a b : numcol) :
  to_floats (s_values (astype_float (series_add (mk_series i a) (mk_series j b))))
  = zip_with fadd (to_floats a) (to_floats b).
Proof.
  destruct a as [xs|xs], b as [ys|ys]; simpl; auto.
  apply of_int_zip_with.
Qed.

(** ** Columns by name *)

Lemma lookup_set_col (n n' : string) (c : column) cols :
  lookup_col n (set_col n' c cols)
  = if String.eqb n' n then Some c else lookup_col n cols.
Proof.
  induction cols as [|[m c'] cols IH]; simpl; auto.
  destruct (String.eqb m n') eqn:E; simpl.
  - apply String.eqb_eq in E. subst m. destruct (String.eqb n' n); auto.
  - rewrite IH. destruct (String.eqb m n) eqn:E'; auto.
    apply String.eqb_eq in E'. subst m. now rewrite String.eqb_sym, E.
Qed.

Lemma lookup_app_last (n n' : string) (c : column) cols :
  lookup_col n (cols ++ [(n', c)])
  = match lookup_col n cols with
    | Some x => Some x
    | None => if String.eqb n' n then Some c else None
    end.
Proof.
  induction cols as [|[m c'] cols IH]; simpl; auto.
  destruct (String.eqb m n); auto.
Qed.

Lemma set_col_twice (n : string) (c1 c2 : column) cols :
  set_col n c2 (set_col n c1 cols) = set_col n c2 cols.
Proof.
  induction cols as [|[m c'] cols IH]; simpl.
  - now rewrite String.eqb_refl.
  - destruct (String.eqb m n) eqn:E; simpl; rewrite E; auto.
    now rewrite IH.
Qed.

Lemma lookup_cols_ext (names : list string) cols cols' :
  (forall n, In n names -> lookup_col n cols' = lookup_col n cols) ->
  lookup_cols names cols' = lookup_cols names cols.
Proof.
  induction names as [|n names IH]; simpl; auto.
  intros H. rewrite (H n) by auto. rewrite IH by auto. reflexivity.
Qed.

Lemma well_shaped_lookup (df : frame) (n : string) (c : column) :
  well_shaped df = true -> lookup_col n (columns df) = Some c ->
  col_length c = length (index df).
Proof.
  unfold well_shaped. generalize (length (index df)) as k.
  induction (columns df) as [|[m c'] cols IH]; simpl; intros k W L;
    try discriminate.
  apply andb_true_iff in W. destruct W as [W1 W2].
  destruct (String.eqb m n).
  - inversion L; subst. now apply Nat.eqb_eq.
  - eauto.
Qed.

(** ** The store *)

Lemma nth_error_update_same {A} (h : list A) (r : nat) (x y : A) :
  nth_error h r = Some x -> nth_error (update r y h) r = Some y.
Proof.
  revert r. induction h as [|z h IH]; intros [|r]; simpl; try discriminate;
    auto.
Qed.

Lemma nth_error_update_other {A} (h : list A) (r r' : nat) (y : A) :
  r <> r' -> nth_error (update r y h) r' = nth_error h r'.
Proof.
  revert r r'. induction h as [|z h IH]; intros [|r] [|r']; simpl; auto;
    try congruence.
Qed.

Lemma update_twice {A} (h : list A) (r : nat) (x y : A) :
  update r y (update r x h) = update r y h.
Proof.
  revert r. induction h as [|z h IH]; intros [|r]; simpl; auto.
  now rewrite IH.
Qed.

Lemma update_length {A} (h : list A) (r : nat) (y : A) :
  length (update r y h) = length h.
Proof.
  revert r. induction h as [|z h IH]; intros [|r]; simpl; auto.
Qed.

Lemma nth_error_last {A} (h : list A) (x : A) :
  nth_error (h ++ [x]) (length h) = Some x.
Proof. induction h; simpl; auto. Qed.

Lemma update_last {A} (h : list A) (x y : A) :
  update (length h) y (h ++ [x]) = h ++ [y].
Proof. induction h; simpl; auto. now rewrite IHh. Qed.

Lemma nth_error_bound {A} (h : list A) (r : nat) (x : A) :
  nth_error h r = Some x -> (r < length h)%nat.
Proof. intros H. apply nth_error_Some. congruence. Qed.

(** ** One operation at a time *)

Lemma bind_inr {A B} (m : M A) (k : A -> M B) h a h' :
  m h = (inr a, h') -> bind m k h = k a h'.
Proof. unfold bind. now intros ->. Qed.

Lemma bind_inl {A B} (m : M A) (k : A -> M B) h e h' :
  m h = (inl e, h') -> bind m k h = (inl e, h').
Proof. unfold bind. now intros ->. Qed.

Lemma deref_run h r df :
  nth_error h r = Some df -> deref r h = (inr df, h).
Proof. unfold deref. now intros ->. Qed.

Lemma attr_run h r df name c :
  nth_error h r = Some df ->
  lookup_col name (columns df) = Some (Num c) ->
  attr r name h = (inr (mk_series (index df) c), h).
Proof.
  intros H L. unfold attr. rewrite (bind_inr _ _ _ _ _ (deref_run _ _ _ H)).
  now rewrite L.
Qed.

Lemma getitem_run h r df name c :
  nth_error h r = Some df ->
  lookup_col name (columns df) = Some (Num c) ->
  getitem r name h = (inr (mk_series (index df) c), h).
Proof.
  intros H L. unfold getitem.
  rewrite (bind_inr _ _ _ _ _ (deref_run _ _ _ H)). now rewrite L.
Qed.

Lemma setitem_run h r df name s c :
  nth_error h r = Some df ->
  reindex_for_setitem s (index df) = inr c ->
  setitem r name s h
  = (inr tt, update r (mk_frame (index df) (set_col name (Num c) (columns df))) h).
Proof.
  intros H L. unfold setitem.
  rewrite (bind_inr _ _ _ _ _ (deref_run _ _ _ H)). now rewrite L.
Qed.

(** A Series that carries the index of the frame is stored as it is. *)
Lemma setitem_same_index h r df name c :
  nth_error h r = Some df ->
  setitem r name (mk_series (index df) c) h
  = (inr tt, update r (mk_frame (index df) (set_col name (Num c) (columns df))) h).
Proof.
  intros H. apply setitem_run; auto.
  unfold reindex_for_setitem. simpl. now rewrite index_eqb_refl.
Qed.

Lemma groupby_sum_run h r df by_ name keys c :
  nth_error h r = Some df ->
  lookup_cols by_ (columns df) = inr keys ->
  lookup_col name (columns df) = Some (Num c) ->
  groupby_sum r by_ name h
  = (inr (grouped_sum (key_rows (length (index df)) keys) (to_floats c)), h).
Proof.
  intros H K L. unfold groupby_sum.
  rewrite (bind_inr _ _ _ _ _ (deref_run _ _ _ H)). rewrite K. simpl.
  unfold bind at 1. unfold ret at 1.
  now rewrite (bind_inr _ _ _ _ _ (attr_run _ _ _ _ _ H L)).
Qed.

Lemma set_index_run h r df by_ keys :
  nth_error h r = Some df ->
  lookup_cols by_ (columns df) = inr keys ->
  set_index r by_ h
  = (inr tt,
     update r (mk_frame (key_rows (length (index df)) keys) (columns df)) h).
Proof.
  intros H K. unfold set_index.
  rewrite (bind_inr _ _ _ _ _ (deref_run _ _ _ H)). now rewrite K.
Qed.

Lemma join_run h r df name s :
  nth_error h r = Some df ->
  has_col name df = false ->
  join r name s h
  = (inr (length h),
     h ++ [mk_frame (index df)
             (columns df ++ [(name, Num (NFloat (joined (index df) s)))])]).
Proof.
  intros H N. unfold join.
  rewrite (bind_inr _ _ _ _ _ (deref_run _ _ _ H)). now rewrite N.
Qed.

Lemma join_overlap h r df name s :
  nth_error h r = Some df ->
  has_col name df = true ->
  join r name s h
  = (inl (ValueError "columns overlap but no suffix specified"), h).
Proof.
  intros H N. unfold join.
  rewrite (bind_inr _ _ _ _ _ (deref_run _ _ _ H)). now rewrite N.
Qed.

Lemma reset_index_run h r df :
  nth_error h r = Some df ->
  reset_index r h
  = (inr tt, update r (mk_frame (range_index (length (index df))) (columns df)) h).
Proof.
  intros H. unfold reset_index.
  now rewrite (bind_inr _ _ _ _ _ (deref_run _ _ _ H)).
Qed.

(** ** One pass of the loop *)

Ltac step L := rewrite (bind_inr _ _ _ _ _ L).

Lemma has_col_false (name : string) (df : frame) :
  has_col name df = false -> lookup_col name (columns df) = None.
Proof. unfold has_col. destruct (lookup_col name (columns df)); easy. Qed.

Lemma get_psis_body_run h r f name by_ keys tot :
  nth_error h r = Some f ->
  lookup_cols by_ (columns f) = inr keys ->
  lookup_col "total_filtered_reads" (columns f) = Some (Num tot) ->
  has_col (name ++ "_denominator")%string f = false ->
  let kr := key_rows (length (index f)) keys in
  get_psis_body (name, by_) r h
  = (inr (length h),
     update r (mk_frame kr (columns f)) h ++ [body_frame name kr tot f]).
Proof.
  intros H K T N kr. unfold get_psis_body.
  step (groupby_sum_run _ _ _ _ _ _ _ H K T).
  step (set_index_run _ _ _ _ _ H K). fold kr.
  set (f1 := mk_frame kr (columns f)).
  set (h1 := update r f1 h).
  assert (nth_error h1 r = Some f1) as H1
      by (eapply nth_error_update_same; eauto).
  assert (has_col (name ++ "_denominator")%string f1 = false) as N1 by exact N.
  step (join_run _ _ _ _ (grouped_sum kr (to_floats tot)) H1 N1).
  set (den := joined (index f1) (grouped_sum kr (to_floats tot))).
  set (J := mk_frame (index f1)
              (columns f1 ++ [((name ++ "_denominator")%string, Num (NFloat den))])).
  pose proof (nth_error_last h1 J) as HJ.
  assert (lookup_col "total_filtered_reads" (columns J) = Some (Num tot)) as TJ.
  { unfold J. cbn [columns]. rewrite lookup_app_last.
    unfold f1. cbn [columns]. now rewrite T. }
  assert (lookup_col (name ++ "_denominator")%string (columns J)
          = Some (Num (NFloat den))) as DJ.
  { unfold J. cbn [columns]. rewrite lookup_app_last.
    unfold f1. cbn [columns]. rewrite (has_col_false _ _ N).
    now rewrite String.eqb_refl. }
  step (attr_run _ _ _ _ _ HJ TJ).
  step (getitem_run _ _ _ _ _ HJ DJ).
  assert (series_div (mk_series (index J) tot) (mk_series (index J) (NFloat den))
          = mk_series (index J) (NFloat (zip_with fdiv (to_floats tot) den)))
    as -> by reflexivity.
  step (setitem_same_index _ _ _ name (NFloat (zip_with fdiv (to_floats tot) den)) HJ).
  rewrite update_last.
  match goal with |- context [h1 ++ [?x]] => set (J' := x) end.
  step (reset_index_run _ _ _ (nth_error_last h1 J')).
  rewrite update_last. unfold ret, h1. rewrite update_length.
  reflexivity.
Qed.

(** ** The statements before the loop *)

Lemma num_length_lookup (df : frame) (n : string) (c : numcol) :
  well_shaped df = true -> lookup_col n (columns df) = Some (Num c) ->
  num_length c = length (index df).
Proof. intros W L. exact (well_shaped_lookup df n (Num c) W L). Qed.

Lemma get_psis_filters h l df mu mm cu cm :
  nth_error h l = Some df ->
  well_shaped df = true ->
  has_dup (index df) = false ->
  lookup_col "unique_junction_reads" (columns df) = Some (Num cu) ->
  lookup_col "multimap_junction_reads" (columns df) = Some (Num cm) ->
  get_psis l mu mm h
  = for_each groupbys get_psis_body l (update l (filtered_frame mu mm cu cm df) h).
Proof.
  intros H W D U Mm. unfold get_psis.
  pose proof (num_length_lookup _ _ _ W U) as LU.
  pose proof (num_length_lookup _ _ _ W Mm) as LM.
  set (idx := index df).
  set (M' := masked (series_ge (mk_series idx cm) mm) cm).
  set (U' := masked (series_ge (mk_series idx cu) mu) cu).
  (* multimap_junction_reads_filtered *)
  step (attr_run _ _ _ _ _ H Mm). step (attr_run _ _ _ _ _ H Mm).
  assert (reindex_for_setitem
            (select (mk_series idx cm) (series_ge (mk_series idx cm) mm)) idx
          = inr M') as R1.
  { apply reindex_select; auto. rewrite series_ge_length. exact LM. }
  step (setitem_run _ _ _ "multimap_junction_reads_filtered" _ _ H R1).
  set (f1 := mk_frame (index df)
               (set_col "multimap_junction_reads_filtered" (Num M') (columns df))).
  assert (nth_error (update l f1 h) l = Some f1) as H1
      by (eapply nth_error_update_same; eauto).
  (* unique_junction_reads_filtered *)
  assert (lookup_col "unique_junction_reads" (columns f1) = Some (Num cu)) as U1.
  { unfold f1. cbn [columns]. rewrite lookup_set_col. exact U. }
  step (attr_run _ _ _ _ _ H1 U1). step (attr_run _ _ _ _ _ H1 U1).
  assert (reindex_for_setitem
            (select (mk_series (index f1) cu)
                    (series_ge (mk_series (index f1) cu) mu)) (index f1)
          = inr U') as R2.
  { apply reindex_select; auto. rewrite series_ge_length. exact LU. }
  step (setitem_run _ _ _ "unique_junction_reads_filtered" _ _ H1 R2).
  rewrite update_twice.
  set (f2 := mk_frame (index f1)
               (set_col "unique_junction_reads_filtered" (Num U') (columns f1))).
  assert (nth_error (update l f2 h) l = Some f2) as H2
      by (eapply nth_error_update_same; eauto).
  (* total_filtered_reads *)
  assert (lookup_col "multimap_junction_reads_filtered" (columns f2)
          = Some (Num M')) as M2.
  { unfold f2, f1. cbn [columns]. now rewrite !lookup_set_col. }
  assert (lookup_col "unique_junction_reads_filtered" (columns f2)
          = Some (Num U')) as U2.
  { unfold f2. cbn [columns]. now rewrite lookup_set_col. }
  step (attr_run _ _ _ _ _ H2 M2). step (attr_run _ _ _ _ _ H2 U2).
  set (sum := series_add (mk_series (index f2) M') (mk_series (index f2) U')).
  assert (sum = mk_series (index f2) (s_values sum)) as Es by reflexivity.
  rewrite Es.
  step (setitem_same_index _ _ _ "total_filtered_reads" (s_values sum) H2).
  rewrite update_twice.
  set (f3 := mk_frame (index f2)
               (set_col "total_filtered_reads" (Num (s_values sum)) (columns f2))).
  assert (nth_error (update l f3 h) l = Some f3) as H3
      by (eapply nth_error_update_same; eauto).
  assert (lookup_col "total_filtered_reads" (columns f3)
          = Some (Num (s_values sum))) as T3.
  { unfold f3. cbn [columns]. now rewrite lookup_set_col. }
  step (attr_run _ _ _ _ _ H3 T3).
  assert (astype_float (mk_series (index f3) (s_values sum))
          = mk_series (index f3) (NFloat (total_reads mu mm cu cm))) as ->.
  { unfold astype_float. cbn [s_index s_values]. f_equal. f_equal.
    pose proof (to_floats_add (index f2) (index f2) M' U') as A.
    unfold astype_float in A. cbn [s_values] in A. fold sum in A.
    cbn [to_floats] in A.
    rewrite A. unfold M', U'. rewrite !to_floats_masked. reflexivity. }
  step (setitem_same_index _ _ _ "total_filtered_reads"
          (NFloat (total_reads mu mm cu cm)) H3).
  rewrite update_twice.
  unfold f3 at 1 2. cbn [columns index]. rewrite set_col_twice.
  reflexivity.
Qed.

(** ** The whole call *)

Lemma range_index_length (n : nat) : length (range_index n) = n.
Proof. unfold range_index. now rewrite length_map, length_seq. Qed.

Lemma key_rows_length (n : nat) (cols : list (list cell)) :
  Forall (fun c => length c = n) cols -> length (key_rows n cols) = n.
Proof.
  induction 1 as [|c cols Hc _ IH]; unfold key_rows; cbn [fold_right].
  - apply repeat_length.
  - fold (key_rows n cols). rewrite zip_with_length.
    + exact Hc.
    + rewrite Hc. symmetry. exact IH.
Qed.

Lemma col_cells_length (c : column) : length (col_cells c) = col_length c.
Proof. destruct c as [[xs|xs]|xs|xs]; simpl; apply length_map. Qed.

Lemma lookup_cols_length (df : frame) (names : list string) keys :
  well_shaped df = true -> lookup_cols names (columns df) = inr keys ->
  Forall (fun c => length c = length (index df)) keys.
Proof.
  intros W. revert keys. induction names as [|n names IH]; simpl; intros keys K.
  - inversion K. constructor.
  - destruct (lookup_col n (columns df)) as [c|] eqn:L; try discriminate.
    destruct (lookup_cols names (columns df)) as [e|cs]; try discriminate.
    inversion K; subst. constructor; auto.
    rewrite col_cells_length. eapply well_shaped_lookup; eauto.
Qed.

Lemma keys_length (df : frame) (names : list string) keys :
  well_shaped df = true -> lookup_cols names (columns df) = inr keys ->
  length (key_rows (length (index df)) keys) = length (index df).
Proof. intros W K. apply key_rows_length. eapply lookup_cols_length; eauto. Qed.

Lemma get_psis_run h l df mu mm cu cm k5 k3 :
  nth_error h l = Some df ->
  well_shaped df = true ->
  has_dup (index df) = false ->
  lookup_col "unique_junction_reads" (columns df) = Some (Num cu) ->
  lookup_col "multimap_junction_reads" (columns df) = Some (Num cm) ->
  lookup_cols psi5_groupby (columns df) = inr k5 ->
  lookup_cols psi3_groupby (columns df) = inr k3 ->
  has_col "psi5_denominator" df = false ->
  has_col "psi3_denominator" df = false ->
  get_psis l mu mm h
  = (inr (S (length h)),
     update l (caller_frame mu mm cu cm k5 df) h
       ++ [mk_frame (key_rows (length (index df)) k3)
             (columns (psi5_frame mu mm cu cm k5 df))]
       ++ [result_frame mu mm cu cm k5 k3 df]).
Proof.
  intros H W D U Mm K5 K3 N5 N3.
  rewrite (get_psis_filters _ _ _ mu mm _ _ H W D U Mm).
  set (F := filtered_frame mu mm cu cm df).
  set (tot := NFloat (total_reads mu mm cu cm)).
  assert (forall n, ~ In n filtered_names ->
                    lookup_col n (columns F) = lookup_col n (columns df)) as Same.
  { intros n Hn. unfold F, filtered_frame. cbn [columns].
    rewrite !lookup_set_col.
    destruct (String.eqb "total_filtered_reads" n) eqn:E1;
      [apply String.eqb_eq in E1; subst; exfalso; apply Hn; simpl; auto|].
    destruct (String.eqb "unique_junction_reads_filtered" n) eqn:E2;
      [apply String.eqb_eq in E2; subst; exfalso; apply Hn; simpl; auto|].
    destruct (String.eqb "multimap_junction_reads_filtered" n) eqn:E3;
      [apply String.eqb_eq in E3; subst; exfalso; apply Hn; simpl; auto|].
    reflexivity. }
  assert (forall names, (forall n, In n names -> ~ In n filtered_names) ->
            lookup_cols names (columns F) = lookup_cols names (columns df))
    as SameKeys.
  { intros names Hn. apply lookup_cols_ext. intros n I. apply Same. auto. }
  assert (nth_error (update l F h) l = Some F) as HF
      by (eapply nth_error_update_same; eauto).
  assert (lookup_cols psi5_groupby (columns F) = inr k5) as K5F.
  { rewrite SameKeys; auto. intros n [<-|[<-|[]]]; simpl; intuition discriminate. }
  assert (lookup_col "total_filtered_reads" (columns F) = Some (Num tot)) as TF.
  { unfold F, filtered_frame. cbn [columns]. now rewrite lookup_set_col. }
  assert (has_col "psi5_denominator" F = false) as N5F.
  { unfold has_col. rewrite Same; [exact N5|]. simpl. intuition discriminate. }
  (* first pass *)
  unfold groupbys. cbn [for_each].
  step (get_psis_body_run _ _ _ "psi5" _ _ _ HF K5F TF N5F).
  rewrite update_twice, update_length.
  assert (index F = index df) as IF by reflexivity. rewrite IF.
  fold (psi5_frame mu mm cu cm k5 df). fold (caller_frame mu mm cu cm k5 df).
  set (P5 := psi5_frame mu mm cu cm k5 df).
  set (h1 := update l (caller_frame mu mm cu cm k5 df) h).
  assert (length h = length h1) as -> by (unfold h1; now rewrite update_length).
  pose proof (nth_error_last h1 P5) as HP.
  assert (forall n, n <> "psi5" -> n <> "psi5_denominator" ->
            lookup_col n (columns P5) = lookup_col n (columns F)) as Same5.
  { intros n A B. unfold P5, psi5_frame, body_frame. cbn [columns].
    rewrite lookup_set_col, lookup_app_last. fold F.
    destruct (String.eqb "psi5" n) eqn:E1;
      [apply String.eqb_eq in E1; congruence|].
    cbn [String.append].
    destruct (String.eqb "psi5_denominator" n) eqn:E2;
      [apply String.eqb_eq in E2; congruence|].
    now destruct (lookup_col n (columns F)). }
  assert (lookup_cols psi3_groupby (columns P5) = inr k3) as K3P.
  { rewrite <- K3, <- (SameKeys psi3_groupby).
    - apply lookup_cols_ext. intros n [<-|[<-|[]]]; apply Same5; discriminate.
    - intros n [<-|[<-|[]]]; simpl; intuition discriminate. }
  assert (lookup_col "total_filtered_reads" (columns P5) = Some (Num tot)) as TP.
  { rewrite Same5 by discriminate. exact TF. }
  assert (has_col "psi3_denominator" P5 = false) as N3P.
  { unfold has_col. rewrite Same5 by discriminate.
    rewrite Same; [exact N3|]. simpl. intuition discriminate. }
  step (get_psis_body_run _ _ _ "psi3" _ _ _ HP K3P TP N3P).
  assert (length (index P5) = length (index df)) as LP.
  { unfold P5, psi5_frame, body_frame. cbn [index].
    rewrite range_index_length. eapply keys_length; eauto. }
  rewrite LP. rewrite update_last. rewrite length_app. simpl.
  rewrite Nat.add_1_r. unfold ret. rewrite <- app_assoc. reflexivity.
Qed.

(** ** Sums of counts that are not negative *)







Lemma nansum_all_nan (xs : list fval) :
  Forall (fun x => x = NaN) xs -> nansum xs = Fin 0.
Proof.
  intros F. unfold nansum.
  replace (filter (fun x => negb (is_nan x)) xs) with (@nil fval); auto.
  induction F as [|x xs -> _ IH]; simpl; auto.
Qed.

Lemma In_pick {A} (mask : list bool) (xs : list A) (i : nat) (x : A) :
  nth_error mask i = Some true -> nth_error xs i = Some x ->
  In x (pick mask xs).
Proof.
  revert xs i. induction mask as [|b mask IH]; intros [|y xs] [|i]; simpl;
    try discriminate.
  - intros [= ->] [= ->]. simpl. auto.
  - intros Hm Hx. destruct b; simpl; eauto.
Qed.

Lemma pick_In {A} (mask : list bool) (xs : list A) (x : A) :
  In x (pick mask xs) ->
  exists i, nth_error mask i = Some true /\ nth_error xs i = Some x.
Proof.
  revert xs. induction mask as [|b mask IH]; intros [|y xs]; simpl; try tauto.
  destruct b; simpl.
  - intros [<-|H]; [exists 0%nat; auto|].
    destruct (IH _ H) as (i & ? & ?). exists (S i); auto.
  - intros H. destruct (IH _ H) as (i & ? & ?). exists (S i); auto.
Qed.


(** ** Denominators *)

Lemma mem_label_filter (l : label) (p : label -> bool) (xs : list label) :
  (forall x, label_eqb l x = true -> p x = true) ->
  mem_label l (filter p xs) = mem_label l xs.
Proof.
  intros H. induction xs as [|x xs IH]; simpl; auto.
  destruct (p x) eqn:E; simpl; rewrite IH; auto.
  destruct (label_eqb l x) eqn:E'; auto.
  rewrite (H _ E') in E. discriminate.
Qed.

Lemma mem_label_dedup (l : label) (xs : list label) :
  mem_label l (dedup xs) = mem_label l xs.
Proof.
  induction xs as [|x xs IH]; simpl; auto.
  destruct (label_eqb l x) eqn:E; simpl; auto.
  rewrite mem_label_filter; auto.
  intros y Hy. destruct (label_eqb x y) eqn:E'; auto.
  rewrite label_eqb_sym in E'. rewrite (label_eqb_trans _ _ _ Hy E') in E.
  discriminate.
Qed.

Lemma lookup_group_map (g : label -> fval) (l : label) (ks : list label) :
  (forall k, label_eqb k l = true -> g k = g l) ->
  lookup_group l (map (fun k => (k, g k)) ks)
  = if mem_label l ks then Some (g l) else None.
Proof.
  intros G. induction ks as [|k ks IH]; simpl; auto.
  rewrite (label_eqb_sym l k).
  destruct (label_eqb k l) eqn:E; simpl; auto. now rewrite G.
Qed.

Lemma group_total_eqb (k l : label) keys vals :
  label_eqb k l = true -> group_total k keys vals = group_total l keys vals.
Proof.
  intros E. unfold group_total. f_equal. f_equal.
  apply map_ext. intros x. now apply label_eqb_ext.
Qed.

(** Looking a key up in the grouped sums: the total of its group, and
    nothing for a key with a missing cell. *)
Lemma lookup_grouped_sum (l : label) keys vals :
  lookup_group l (grouped_sum keys vals)
  = if negb (label_missing l) && mem_label l keys
    then Some (group_total l keys vals) else None.
Proof.
  unfold grouped_sum.
  rewrite (lookup_group_map (fun k => group_total k keys vals))
    by (intros k E; now apply group_total_eqb).
  rewrite mem_label_dedup.
  destruct (label_missing l) eqn:Ml; simpl.
  - replace (mem_label l (filter (fun k => negb (label_missing k)) keys))
      with false; auto.
    symmetry. apply not_true_is_false. intros H.
    apply existsb_exists in H. destruct H as (x & Hx & E).
    apply filter_In in Hx. destruct Hx as [_ Hx].
    rewrite <- (label_missing_eqb _ _ E), Ml in Hx. discriminate.
  - rewrite mem_label_filter; auto.
    intros x E. now rewrite <- (label_missing_eqb _ _ E), Ml.
Qed.

Lemma mem_label_nth (keys : list label) (i : nat) (k : label) :
  nth_error keys i = Some k -> mem_label k keys = true.
Proof.
  intros H. apply existsb_exists. exists k. split.
  - eapply nth_error_In; eauto.
  - apply label_eqb_refl.
Qed.

(** The denominator of a row: the total of its group, or NaN when its key
    has a missing cell. *)
Lemma denominators_nth keys tot (i : nat) (k : label) :
  nth_error keys i = Some k ->
  nth_error (denominators keys tot) i
  = Some (if label_missing k then NaN
          else group_total k keys (to_floats tot)).
Proof.
  intros H. unfold denominators, joined.
  rewrite nth_error_map, H. simpl. rewrite lookup_grouped_sum.
  rewrite (mem_label_nth _ _ _ H). now destruct (label_missing k).
Qed.

(** ** Scores, row by row *)






(** ** Totals that are not negative *)







(** ** The columns of the frames a call leaves *)

Ltac lookups :=
  repeat (rewrite lookup_set_col || rewrite lookup_app_last);
  cbn [String.append].

(** Rules out the case where a name that is not written equals one that
    is. *)
Ltac other_name H :=
  repeat match goal with
  | |- context [String.eqb ?s ?x] =>
      is_var x;
      let E := fresh "E" in
      destruct (String.eqb s x) eqn:E;
      [apply String.eqb_eq in E; subst x; exfalso; apply H; simpl; tauto|]
  end.

Lemma cols_shaped_set_col (k : nat) (n : string) (c : column) cols :
  forallb (fun nc => Nat.eqb (col_length (snd nc)) k) cols = true ->
  col_length c = k ->
  forallb (fun nc : string * column => Nat.eqb (col_length (snd nc)) k)
          (set_col n c cols) = true.
Proof.
  intros F L. induction cols as [|[m c'] cols IH]; simpl in *.
  - now rewrite L, Nat.eqb_refl.
  - apply andb_true_iff in F. destruct F as [F1 F2].
    destruct (String.eqb m n); simpl.
    + now rewrite L, Nat.eqb_refl, F2.
    + now rewrite F1, IH.
Qed.

Lemma cols_shaped_app_last (k : nat) (n : string) (c : column) cols :
  forallb (fun nc => Nat.eqb (col_length (snd nc)) k) cols = true ->
  col_length c = k ->
  forallb (fun nc : string * column => Nat.eqb (col_length (snd nc)) k)
          (cols ++ [(n, c)]) = true.
Proof.
  intros F L. rewrite forallb_app, F. simpl. now rewrite L, Nat.eqb_refl.
Qed.

Lemma denominators_length keys tot :
  length (denominators keys tot) = length keys.
Proof. unfold denominators, joined. apply length_map. Qed.

Section Result.

Variables (df : frame) (mu mm : Z) (cu cm : numcol).
Variables (k5 k3 : list (list cell)).

Hypothesis W : well_shaped df = true.
Hypothesis U :
  lookup_col "unique_junction_reads" (columns df) = Some (Num cu).
Hypothesis Mm :
  lookup_col "multimap_junction_reads" (columns df) = Some (Num cm).
Hypothesis K5 : lookup_cols psi5_groupby (columns df) = inr k5.
Hypothesis K3 : lookup_cols psi3_groupby (columns df) = inr k3.
Hypothesis N5 : has_col "psi5_denominator" df = false.
Hypothesis N3 : has_col "psi3_denominator" df = false.

Lemma total_reads_length :
  length (total_reads mu mm cu cm) = length (index df).
Proof.
  unfold total_reads.
  pose proof (num_length_lookup _ _ _ W U) as LU.
  pose proof (num_length_lookup _ _ _ W Mm) as LM.
  rewrite zip_with_length; rewrite !length_map, !to_floats_length; congruence.
Qed.

Lemma keys5_length :
  length (key_rows (length (index df)) k5) = length (index df).
Proof. eapply keys_length; eauto. Qed.

Lemma keys3_length :
  length (key_rows (length (index df)) k3) = length (index df).
Proof. eapply keys_length; eauto. Qed.

Lemma result_index :
  index (result_frame mu mm cu cm k5 k3 df) = range_index (length (index df)).
Proof.
  unfold result_frame, body_frame. cbn [index]. now rewrite keys3_length.
Qed.

Lemma result_same (x : string) :
  ~ In x derived_names ->
  lookup_col x (columns (result_frame mu mm cu cm k5 k3 df))
  = lookup_col x (columns df).
Proof.
  intros H. unfold result_frame, psi5_frame, body_frame, filtered_frame.
  cbn [columns]. lookups. other_name H.
  now destruct (lookup_col x (columns df)).
Qed.

Lemma caller_same (x : string) :
  ~ In x filtered_names ->
  lookup_col x (columns (caller_frame mu mm cu cm k5 df))
  = lookup_col x (columns df).
Proof.
  intros H. unfold caller_frame, filtered_frame. cbn [columns]. lookups.
  other_name H. reflexivity.
Qed.

Lemma caller_filtered (x : string) :
  In x filtered_names ->
  has_col x (caller_frame mu mm cu cm k5 df) = true.
Proof.
  unfold has_col, caller_frame, filtered_frame. cbn [columns].
  intros [<-|[<-|[<-|[]]]]; lookups; reflexivity.
Qed.

Lemma result_total :
  floats_of "total_filtered_reads" (result_frame mu mm cu cm k5 k3 df)
  = total_reads mu mm cu cm.
Proof.
  unfold floats_of, result_frame, psi5_frame, body_frame, filtered_frame.
  cbn [columns]. lookups. reflexivity.
Qed.

Lemma result_den5 :
  floats_of "psi5_denominator" (result_frame mu mm cu cm k5 k3 df)
  = denominators (key_rows (length (index df)) k5)
      (NFloat (total_reads mu mm cu cm)).
Proof.
  unfold floats_of, result_frame, psi5_frame, body_frame, filtered_frame.
  cbn [columns]. lookups. simpl String.eqb. cbv iota.
  now rewrite (has_col_false _ _ N5).
Qed.

Lemma result_psi5 :
  floats_of "psi5" (result_frame mu mm cu cm k5 k3 df)
  = scores (key_rows (length (index df)) k5)
      (NFloat (total_reads mu mm cu cm)).
Proof.
  unfold floats_of, result_frame, psi5_frame, body_frame, filtered_frame.
  cbn [columns]. lookups. reflexivity.
Qed.

Lemma result_den3 :
  floats_of "psi3_denominator" (result_frame mu mm cu cm k5 k3 df)
  = denominators (key_rows (length (index df)) k3)
      (NFloat (total_reads mu mm cu cm)).
Proof.
  unfold floats_of, result_frame, psi5_frame, body_frame, filtered_frame.
  cbn [columns]. lookups. simpl String.eqb. cbv iota.
  now rewrite (has_col_false _ _ N3).
Qed.

Lemma result_psi3 :
  floats_of "psi3" (result_frame mu mm cu cm k5 k3 df)
  = scores (key_rows (length (index df)) k3)
      (NFloat (total_reads mu mm cu cm)).
Proof.
  unfold floats_of, result_frame, psi5_frame, body_frame, filtered_frame.
  cbn [columns]. lookups. reflexivity.
Qed.

Lemma result_keys (by_ : list string) :
  (forall x, In x by_ -> ~ In x derived_names) ->
  keys_of by_ (result_frame mu mm cu cm k5 k3 df) = keys_of by_ df.
Proof.
  intros H. unfold keys_of.
  rewrite (lookup_cols_ext by_ (columns df)
             (columns (result_frame mu mm cu cm k5 k3 df)))
    by (intros x Hx; apply result_same; auto).
  now rewrite result_index, range_index_length.
Qed.

Lemma scores_length keys :
  length keys = length (index df) ->
  length (scores keys (NFloat (total_reads mu mm cu cm))) = length (index df).
Proof.
  intros L. unfold scores.
  rewrite zip_with_length; cbn [to_floats]; rewrite total_reads_length; auto.
  now rewrite denominators_length.
Qed.

Lemma result_shaped :
  well_shaped (result_frame mu mm cu cm k5 k3 df) = true.
Proof.
  unfold well_shaped. rewrite result_index, range_index_length.
  unfold result_frame, psi5_frame, body_frame, filtered_frame.
  cbn [columns].
  pose proof (num_length_lookup _ _ _ W U) as LU.
  pose proof (num_length_lookup _ _ _ W Mm) as LM.
  repeat first
    [ apply cols_shaped_set_col | apply cols_shaped_app_last ];
    try exact W; cbn [col_length num_length].
  - rewrite masked_length; auto. now rewrite series_ge_length.
  - rewrite masked_length; auto. now rewrite series_ge_length.
  - apply total_reads_length.
  - rewrite denominators_length. apply keys5_length.
  - apply scores_length, keys5_length.
  - rewrite denominators_length. apply keys3_length.
  - apply scores_length, keys3_length.
Qed.

End Result.

(** ** Accepted tables *)

Lemma is_numeric_inv (name : string) (df : frame) :
  is_numeric name df = true ->
  exists c, lookup_col name (columns df) = Some (Num c).
Proof.
  unfold is_numeric.
  destruct (lookup_col name (columns df)) as [[c| |]|]; try discriminate.
  eauto.
Qed.

Lemma has_col_inv (name : string) (df : frame) :
  has_col name df = true -> exists c, lookup_col name (columns df) = Some c.
Proof.
  unfold has_col. destruct (lookup_col name (columns df)); try discriminate.
  eauto.
Qed.

Lemma lookup_cols_two (a b : string) (df : frame) :
  has_col a df = true -> has_col b df = true ->
  exists ks, lookup_cols [a; b] (columns df) = inr ks.
Proof.
  intros Ha Hb. destruct (has_col_inv _ _ Ha) as [ca La].
  destruct (has_col_inv _ _ Hb) as [cb Lb].
  simpl. rewrite La, Lb. eauto.
Qed.

Lemma countable_inv (df : frame) :
  countable df = true ->
  well_shaped df = true /\ has_dup (index df) = false
  /\ (exists cu, lookup_col "unique_junction_reads" (columns df) = Some (Num cu))
  /\ (exists cm, lookup_col "multimap_junction_reads" (columns df) = Some (Num cm)).
Proof.
  unfold countable. rewrite !andb_true_iff, negb_true_iff.
  intros [[[W D] M] U]. auto using is_numeric_inv.
Qed.

Lemma sj_table_inv (df : frame) :
  sj_table df = true ->
  countable df = true
  /\ (exists k5, lookup_cols psi5_groupby (columns df) = inr k5)
  /\ (exists k3, lookup_cols psi3_groupby (columns df) = inr k3)
  /\ has_col "psi5_denominator" df = false
  /\ has_col "psi3_denominator" df = false.
Proof.
  unfold sj_table. rewrite !andb_true_iff, !negb_true_iff.
  intros [[[[[Cn Hc] Hs] Ht] N5] N3].
  repeat split; auto; apply lookup_cols_two; auto.
Qed.

Lemma nth_error_result {A} (h : list A) (x y : A) :
  nth_error (h ++ [x] ++ [y]) (S (length h)) = Some y.
Proof.
  rewrite app_assoc.
  replace (S (length h)) with (length (h ++ [x]))
    by (rewrite length_app; simpl; lia).
  apply nth_error_last.
Qed.

(** On an accepted table the call returns, with the two frames in closed
    form. *)
Lemma get_psis_ok h l df mu mm :
  nth_error h l = Some df -> sj_table df = true ->
  exists cu cm k5 k3,
    well_shaped df = true
    /\ lookup_col "unique_junction_reads" (columns df) = Some (Num cu)
    /\ lookup_col "multimap_junction_reads" (columns df) = Some (Num cm)
    /\ lookup_cols psi5_groupby (columns df) = inr k5
    /\ lookup_cols psi3_groupby (columns df) = inr k3
    /\ has_col "psi5_denominator" df = false
    /\ has_col "psi3_denominator" df = false
    /\ exists h',
        get_psis l mu mm h = (inr (S (length h)), h')
        /\ nth_error h' l = Some (caller_frame mu mm cu cm k5 df)
        /\ nth_error h' (S (length h))
           = Some (result_frame mu mm cu cm k5 k3 df).
Proof.
  intros H T.
  destruct (sj_table_inv df T) as (Cn & [k5 K5] & [k3 K3] & N5 & N3).
  destruct (countable_inv df Cn) as (W & D & [cu U] & [cm Mm]).
  exists cu, cm, k5, k3. repeat (split; auto).
  eexists. split; [eapply get_psis_run; eauto|]. split.
  - rewrite nth_error_app1
      by (rewrite update_length; eapply nth_error_bound; eauto).
    eapply nth_error_update_same; eauto.
  - rewrite <- (update_length h l (caller_frame mu mm cu cm k5 df)).
    apply nth_error_result.
Qed.



Lemma mem_label_range (a b n : nat) :
  (a < b)%nat ->
  mem_label [CInt (Z.of_nat a)]
            (map (fun i => [CInt (Z.of_nat i)]) (seq b n)) = false.
Proof.
  revert b. induction n as [|n IH]; simpl; intros b L; auto.
  rewrite IH by lia. rewrite orb_false_r, andb_true_r.
  apply Z.eqb_neq. lia.
Qed.

Lemma has_dup_range (n : nat) : has_dup (range_index n) = false.
Proof.
  unfold range_index. generalize 0%nat as a.
  induction n as [|n IH]; simpl; intros a; auto.
  rewrite IH, mem_label_range by lia. reflexivity.
Qed.

(** A pass of the loop on a frame that already has the denominator. *)
Lemma get_psis_body_overlap h r f name by_ keys tot :
  nth_error h r = Some f ->
  lookup_cols by_ (columns f) = inr keys ->
  lookup_col "total_filtered_reads" (columns f) = Some (Num tot) ->
  has_col (name ++ "_denominator")%string f = true ->
  get_psis_body (name, by_) r h
  = (inl (ValueError "columns overlap but no suffix specified"),
     update r (mk_frame (key_rows (length (index f)) keys) (columns f)) h).
Proof.
  intros H K T N. unfold get_psis_body.
  step (groupby_sum_run _ _ _ _ _ _ _ H K T).
  step (set_index_run _ _ _ _ _ H K).
  set (f1 := mk_frame (key_rows (length (index f)) keys) (columns f)).
  assert (nth_error (update r f1 h) r = Some f1) as H1
      by (eapply nth_error_update_same; eauto).
  assert (has_col (name ++ "_denominator")%string f1 = true) as N1 by exact N.
  apply bind_inl. exact (join_overlap _ _ _ _ _ H1 N1).
Qed.

(** What the reader returns is accepted whenever what [pd.read_table]
    returned is: the reader rewrites the motif and the annotation only. *)
Lemma reader_output_accepted (parsed sj : frame) :
  sj_table parsed = true -> read_sj_out_tab parsed = inr sj ->
  sj_table sj = true.
Proof.
  intros T R. unfold read_sj_out_tab in R.
  destruct (lookup_col "intron_motif" (columns parsed)) as [motif|] eqn:Lm;
    try discriminate.
  rewrite lookup_set_col in R. cbn [String.eqb Ascii.eqb Bool.eqb] in R.
  destruct (lookup_col "annotated" (columns parsed)) as [ann|] eqn:La;
    try discriminate.
  injection R as <-.
  assert (forall x, x <> "annotated" -> x <> "intron_motif" ->
            lookup_col x
              (set_col "annotated" (BoolCol (map py_bool (col_cells ann)))
                 (set_col "intron_motif"
                    (ObjCol (map int_to_intron_motif (col_cells motif)))
                    (columns parsed)))
            = lookup_col x (columns parsed)) as Same.
  { intros x A B. rewrite !lookup_set_col.
    destruct (String.eqb "annotated" x) eqn:E1;
      [apply String.eqb_eq in E1; congruence|].
    destruct (String.eqb "intron_motif" x) eqn:E2;
      [apply String.eqb_eq in E2; congruence|].
    reflexivity. }
  unfold sj_table, countable, is_numeric, has_col in *. cbn [columns index].
  rewrite !Same by discriminate.
  rewrite !andb_true_iff in *.
  destruct T as [[[[[[[[W D] M] U] Hc] Hs] Ht] N5] N3].
  repeat split; auto.
  unfold well_shaped in *. cbn [columns index].
  apply cols_shaped_set_col; [apply cols_shaped_set_col; auto|];
    cbn [col_length]; rewrite length_map, col_cells_length.
  - exact (well_shaped_lookup parsed _ _ W Lm).
  - exact (well_shaped_lookup parsed _ _ W La).
Qed.

(** * Properties of the module *)

(** ** The example of the docstring *)

(** C1.  The docstring of [get_psis] shows, for its three-row table and the
    default thresholds 5 and 10, psi5 = 0.9, 0.1, 1.0 and psi3 = 1.0, 0.2,
    0.8.  The code does not produce them: every multimapping count is 0,
    below 10, so every filtered multimapping count is NaN, [add] without a
    fill value makes every total NaN, and all six scores are NaN. *)
Theorem docstring_scores_are_missing :
  exists out,
    call_get_psis docstring_sj 5 10 = inr out
    /\ floats_of "total_filtered_reads" out = [NaN; NaN; NaN]
    /\ floats_of "psi5" out = [NaN; NaN; NaN]
    /\ floats_of "psi3" out = [NaN; NaN; NaN].
Proof. eexists. split; [vm_compute; reflexivity|]. vm_compute. auto. Qed.

(** With no threshold on the multimapping reads the scores of the docstring
    come out. *)
Example docstring_scores_without_multimap_filter :
  exists out,
    call_get_psis docstring_sj 5 0 = inr out
    /\ floats_of "psi5" out = [Fin (9 # 10); Fin (1 # 10); Fin 1]
    /\ floats_of "psi3" out = [Fin 1; Fin (1 # 5); Fin (4 # 5)].
Proof. eexists. split; [vm_compute; reflexivity|]. vm_compute. auto. Qed.

(** ** The total of a row *)

(** C2.  The total of a row is not the sum of the filtered counts with a
    missing one read as 0: as soon as the multimapping count of a row fails
    its threshold the total of that row is NaN, whatever its unique
    count. *)
Theorem total_missing_when_multimap_filtered h l df mu mm i m :
  nth_error h l = Some df -> sj_table df = true ->
  nth_error (floats_of "multimap_junction_reads" df) i = Some m ->
  fge m mm = false ->
  exists r h' out,
    get_psis l mu mm h = (inr r, h') /\ nth_error h' r = Some out
    /\ nth_error (floats_of "total_filtered_reads" out) i = Some NaN.
Proof.
  intros H T Hm G.
  destruct (get_psis_ok h l df mu mm H T)
    as (cu & cm & k5 & k3 & W & U & Mm & K5 & K3 & N5 & N3 & h' & Run & _ & Out).
  exists (S (length h)), h', (result_frame mu mm cu cm k5 k3 df).
  repeat split; auto.
  rewrite (result_total df mu mm cu cm k5 k3).
  unfold floats_of in Hm. rewrite Mm in Hm.
  unfold total_reads. rewrite nth_error_zip_with, !nth_error_map, Hm.
  assert (i < length (to_floats cu))%nat as Lt.
  { apply nth_error_bound in Hm.
    rewrite to_floats_length in *.
    rewrite (num_length_lookup _ _ _ W U).
    now rewrite <- (num_length_lookup _ _ _ W Mm). }
  destruct (nth_error (to_floats cu) i) eqn:E.
  - simpl. unfold keep at 1. now rewrite G.
  - apply nth_error_None in E. lia.
Qed.

Lemma total_missing_when_multimap_filtered_witness :
  exists r h' out,
    get_psis 0%nat 5 10 [docstring_sj] = (inr r, h')
    /\ nth_error h' r = Some out
    /\ nth_error (floats_of "total_filtered_reads" out) 0 = Some NaN.
Proof.
  apply (total_missing_when_multimap_filtered
           [docstring_sj] 0%nat docstring_sj 5 10 0%nat (of_int 0));
    reflexivity.
Defined.

(** ** Rows *)

(** C4.  The frame returned has the rows of the argument, as many and in
    the same order: its index is 0, 1, ... over the same number of rows,
    each of its columns has that number of values, and every column of the
    argument that is not one of the derived ones is there unchanged; this
    holds for the nine columns of [COLUMN_NAMES].  No threshold removes a
    row. *)
Theorem rows_preserved h l df mu mm :
  nth_error h l = Some df -> sj_table df = true ->
  exists r h' out,
    get_psis l mu mm h = (inr r, h') /\ nth_error h' r = Some out
    /\ length (index out) = length (index df)
    /\ index out = range_index (length (index df))
    /\ well_shaped out = true
    /\ (forall name, ~ In name derived_names ->
          lookup_col name (columns out) = lookup_col name (columns df))
    /\ (forall name, In name COLUMN_NAMES ->
          lookup_col name (columns out) = lookup_col name (columns df)).
Proof.
  intros H T.
  destruct (get_psis_ok h l df mu mm H T)
    as (cu & cm & k5 & k3 & W & U & Mm & K5 & K3 & N5 & N3 & h' & Run & _ & Out).
  exists (S (length h)), h', (result_frame mu mm cu cm k5 k3 df).
  pose proof (result_index df mu mm cu cm k5 k3 W K3) as I.
  pose proof (result_same df mu mm cu cm k5 k3) as S.
  repeat split; auto.
  - now rewrite I, range_index_length.
  - now apply result_shaped.
  - intros name Hn. apply S. intros D.
    unfold COLUMN_NAMES, derived_names, filtered_names in *. simpl in *.
    repeat match goal with
    | H : _ \/ _ |- _ => destruct H as [H|H]
    end; subst; try discriminate; auto.
Qed.

Lemma rows_preserved_witness :
  exists r h' out,
    get_psis 0%nat 5 10 [docstring_sj] = (inr r, h') /\ nth_error h' r = Some out
    /\ length (index out) = 3%nat
    /\ index out = range_index 3
    /\ well_shaped out = true
    /\ (forall name, ~ In name derived_names ->
          lookup_col name (columns out) = lookup_col name (columns docstring_sj))
    /\ (forall name, In name COLUMN_NAMES ->
          lookup_col name (columns out) = lookup_col name (columns docstring_sj)).
Proof.
  apply (rows_preserved [docstring_sj] 0%nat docstring_sj 5 10); reflexivity.
Defined.

(** ** Scores *)







(** No read at all: the totals are 0.0 with thresholds 0, the denominators
    are 0.0, and 0.0 / 0.0 is NaN. *)
Example no_reads_scores :
  exists out,
    call_get_psis no_reads_sj 0 0 = inr out
    /\ floats_of "total_filtered_reads" out = [Fin 0; Fin 0]
    /\ floats_of "psi5_denominator" out = [Fin 0; Fin 0]
    /\ floats_of "psi5" out = [NaN; NaN]
    /\ floats_of "psi3" out = [NaN; NaN].
Proof. eexists. split; [vm_compute; reflexivity|]. vm_compute. auto. Qed.

(** Why the counts or the thresholds must not be negative: a count of -5
    and one of 5 that both pass a threshold of -10 add up to a denominator
    of 0.0, and the two scores are the infinities, not NaN. *)
Example negative_counts_give_infinities :
  exists out,
    call_get_psis negative_sj (-10) (-10) = inr out
    /\ floats_of "psi5_denominator" out = [Fin 0; Fin 0]
    /\ floats_of "psi5" out = [NInf; PInf].
Proof. eexists. split; [vm_compute; reflexivity|]. vm_compute. auto. Qed.

(** ** Groups without a total *)

Lemma group_total_all_missing keys tot (k : label) :
  all_missing_group keys tot k -> group_total k keys tot = Fin 0.
Proof.
  intros A. unfold group_total. apply nansum_all_nan.
  apply Forall_forall. intros x Hx.
  destruct (pick_In _ _ _ Hx) as (j & Mj & Tj).
  rewrite nth_error_map in Mj.
  destruct (nth_error keys j) as [k'|] eqn:Kj; try discriminate.
  simpl in Mj. injection Mj as Mj.
  rewrite (A j k' Kj Mj) in Tj. congruence.
Qed.

Lemma scores_all_missing keys tot (i : nat) (k : label) :
  nth_error keys i = Some k -> label_missing k = false ->
  (i < length (to_floats tot))%nat ->
  all_missing_group keys (to_floats tot) k ->
  nth_error (denominators keys tot) i = Some (Fin 0)
  /\ nth_error (scores keys tot) i = Some NaN.
Proof.
  intros K Ms L A.
  pose proof (denominators_nth keys tot i k K) as D.
  rewrite Ms, (group_total_all_missing _ _ _ A) in D.
  split; auto.
  unfold scores. rewrite nth_error_zip_with, D.
  rewrite (A i k K (label_eqb_refl k)). reflexivity.
Qed.

Lemma keys_of_lookup (by_ : list string) (df : frame) ks :
  lookup_cols by_ (columns df) = inr ks ->
  keys_of by_ df = key_rows (length (index df)) ks.
Proof. intros K. unfold keys_of. now rewrite K. Qed.

Lemma groupby_not_derived (by_ : list string) :
  by_ = psi5_groupby \/ by_ = psi3_groupby ->
  forall x, In x by_ -> ~ In x derived_names.
Proof.
  intros [-> | ->] x [<-|[<-|[]]]; simpl; intuition discriminate.
Qed.

(** C10.  In the frame returned, a row whose key has no missing cell and
    whose group has a missing total in every row has the denominator 0,
    not NaN, and the score NaN; this holds for the grouping by chrom and
    intron_start with psi5 and for the grouping by chrom and intron_stop
    with psi3, and the call returns. *)
Theorem all_missing_group_has_zero_denominator h l df mu mm :
  nth_error h l = Some df -> sj_table df = true ->
  exists r h' out,
    get_psis l mu mm h = (inr r, h') /\ nth_error h' r = Some out
    /\ (forall i k,
          nth_error (keys_of psi5_groupby out) i = Some k ->
          label_missing k = false ->
          all_missing_group (keys_of psi5_groupby out)
                            (floats_of "total_filtered_reads" out) k ->
          nth_error (floats_of "psi5_denominator" out) i = Some (Fin 0)
          /\ nth_error (floats_of "psi5" out) i = Some NaN)
    /\ (forall i k,
          nth_error (keys_of psi3_groupby out) i = Some k ->
          label_missing k = false ->
          all_missing_group (keys_of psi3_groupby out)
                            (floats_of "total_filtered_reads" out) k ->
          nth_error (floats_of "psi3_denominator" out) i = Some (Fin 0)
          /\ nth_error (floats_of "psi3" out) i = Some NaN).
Proof.
  intros H T.
  destruct (get_psis_ok h l df mu mm H T)
    as (cu & cm & k5 & k3 & W & U & Mm & K5 & K3 & N5 & N3 & h' & Run & _ & Out).
  exists (S (length h)), h', (result_frame mu mm cu cm k5 k3 df).
  rewrite (result_psi5 df mu mm cu cm k5 k3), (result_psi3 df mu mm cu cm k5 k3).
  rewrite (result_den5 df mu mm cu cm k5 k3 N5).
  rewrite (result_den3 df mu mm cu cm k5 k3 N3).
  rewrite (result_total df mu mm cu cm k5 k3).
  rewrite !(result_keys df mu mm cu cm k5 k3 W K3)
    by (apply groupby_not_derived; auto).
  rewrite (keys_of_lookup _ _ _ K5), (keys_of_lookup _ _ _ K3).
  pose proof (total_reads_length df mu mm cu cm W U Mm) as LT.
  repeat split; auto.
  - apply (scores_all_missing _ (NFloat (total_reads mu mm cu cm)) i k); auto.
    cbn [to_floats]. rewrite LT, <- (keys5_length df k5 W K5).
    eapply nth_error_bound; eauto.
  - apply (scores_all_missing _ (NFloat (total_reads mu mm cu cm)) i k); auto.
    cbn [to_floats]. rewrite LT, <- (keys5_length df k5 W K5).
    eapply nth_error_bound; eauto.
  - apply (scores_all_missing _ (NFloat (total_reads mu mm cu cm)) i k); auto.
    cbn [to_floats]. rewrite LT, <- (keys3_length df k3 W K3).
    eapply nth_error_bound; eauto.
  - apply (scores_all_missing _ (NFloat (total_reads mu mm cu cm)) i k); auto.
    cbn [to_floats]. rewrite LT, <- (keys3_length df k3 W K3).
    eapply nth_error_bound; eauto.
Qed.

Lemma all_missing_group_has_zero_denominator_witness :
  exists r h' out,
    get_psis 0%nat 5 10 [docstring_sj] = (inr r, h') /\ nth_error h' r = Some out
    /\ (forall i k,
          nth_error (keys_of psi5_groupby out) i = Some k ->
          label_missing k = false ->
          all_missing_group (keys_of psi5_groupby out)
                            (floats_of "total_filtered_reads" out) k ->
          nth_error (floats_of "psi5_denominator" out) i = Some (Fin 0)
          /\ nth_error (floats_of "psi5" out) i = Some NaN)
    /\ (forall i k,
          nth_error (keys_of psi3_groupby out) i = Some k ->
          label_missing k = false ->
          all_missing_group (keys_of psi3_groupby out)
                            (floats_of "total_filtered_reads" out) k ->
          nth_error (floats_of "psi3_denominator" out) i = Some (Fin 0)
          /\ nth_error (floats_of "psi3" out) i = Some NaN).
Proof.
  apply (all_missing_group_has_zero_denominator
           [docstring_sj] 0%nat docstring_sj 5 10); reflexivity.
Defined.

(** ** What the call does to its argument *)

(** C3, as stated, fails on the table of the docstring: after the call with
    the default thresholds the frame the caller passed is no longer the
    one it was; it has the column [total_filtered_reads]. *)
Lemma caller_table_changed :
  nth_error (snd (get_psis 0%nat 5 10 [docstring_sj])) 0 <> Some docstring_sj
  /\ exists df',
       nth_error (snd (get_psis 0%nat 5 10 [docstring_sj])) 0 = Some df'
       /\ has_col "total_filtered_reads" docstring_sj = false
       /\ has_col "total_filtered_reads" df' = true.
Proof.
  split.
  - vm_compute. discriminate.
  - eexists. split; [vm_compute; reflexivity|]. split; reflexivity.
Qed.

(** C3, amended.  The call writes into the frame it is given: afterwards
    that frame has the three columns of filtered counts and is indexed by
    the keys (chrom, intron_start); every other column of it is as before,
    so the denominators and the scores are not added to it.  The frame
    returned is another object, and no other frame of the store is
    touched. *)
Theorem caller_table_is_augmented h l df mu mm :
  nth_error h l = Some df -> sj_table df = true ->
  exists r h' df',
    get_psis l mu mm h = (inr r, h') /\ r <> l
    /\ nth_error h' l = Some df'
    /\ (forall name, In name filtered_names -> has_col name df' = true)
    /\ (forall name, ~ In name filtered_names ->
          lookup_col name (columns df') = lookup_col name (columns df))
    /\ index df' = keys_of psi5_groupby df
    /\ (forall l', l' <> l -> (l' < length h)%nat ->
          nth_error h' l' = nth_error h l').
Proof.
  intros H T.
  destruct (sj_table_inv df T) as (Cn & [k5 K5] & [k3 K3] & N5 & N3).
  destruct (countable_inv df Cn) as (W & D & [cu U] & [cm Mm]).
  pose proof (get_psis_run h l df mu mm cu cm k5 k3 H W D U Mm K5 K3 N5 N3)
    as Run.
  pose proof (nth_error_bound _ _ _ H) as B.
  eexists _, _, (caller_frame mu mm cu cm k5 df).
  split; [exact Run|]. repeat split.
  - lia.
  - rewrite nth_error_app1 by (now rewrite update_length).
    eapply nth_error_update_same; eauto.
  - apply caller_filtered.
  - apply caller_same.
  - now rewrite (keys_of_lookup _ _ _ K5).
  - intros l' Ne Lt. rewrite nth_error_app1 by (now rewrite update_length).
    apply nth_error_update_other. congruence.
Qed.

Lemma caller_table_is_augmented_witness :
  exists r h' df',
    get_psis 0%nat 5 10 [docstring_sj] = (inr r, h') /\ r <> 0%nat
    /\ nth_error h' 0 = Some df'
    /\ (forall name, In name filtered_names -> has_col name df' = true)
    /\ (forall name, ~ In name filtered_names ->
          lookup_col name (columns df') = lookup_col name (columns docstring_sj))
    /\ index df' = keys_of psi5_groupby docstring_sj
    /\ (forall l', l' <> 0%nat -> (l' < 1)%nat ->
          nth_error h' l' = nth_error [docstring_sj] l').
Proof.
  apply (caller_table_is_augmented [docstring_sj] 0%nat docstring_sj 5 10);
    reflexivity.
Defined.

(** ** Errors *)




(** ** A second call *)

(** C7, as stated, fails on the table of the docstring: a second call, on
    the frame the first one returned and with the same thresholds, raises
    ValueError. *)
Lemma second_call_on_docstring_fails :
  exists r h',
    get_psis 0%nat 5 10 [docstring_sj] = (inr r, h')
    /\ fst (get_psis r 5 10 h')
       = inl (ValueError "columns overlap but no suffix specified").
Proof. eexists _, _. split; [vm_compute; reflexivity|]. vm_compute. auto. Qed.

(** C7, amended.  [get_psis] cannot be applied to what it returned: the
    second call, with the same thresholds, raises the ValueError of a join
    whose two sides share a column name, because [psi5_denominator] is
    already a column. *)
Theorem second_call_fails h l df mu mm :
  nth_error h l = Some df -> sj_table df = true ->
  exists r h',
    get_psis l mu mm h = (inr r, h')
    /\ exists h'',
         get_psis r mu mm h'
         = (inl (ValueError "columns overlap but no suffix specified"), h'').
Proof.
  intros H T.
  destruct (get_psis_ok h l df mu mm H T)
    as (cu & cm & k5 & k3 & W & U & Mm & K5 & K3 & N5 & N3 & h' & Run & _ & Out).
  exists (S (length h)), h'. split; auto.
  set (R := result_frame mu mm cu cm k5 k3 df) in *.
  pose proof (result_same df mu mm cu cm k5 k3) as Same. fold R in Same.
  assert (well_shaped R = true) as WR by (now apply result_shaped).
  assert (has_dup (index R) = false) as DR.
  { unfold R. rewrite (result_index df mu mm cu cm k5 k3 W K3).
    apply has_dup_range. }
  assert (lookup_col "unique_junction_reads" (columns R) = Some (Num cu)) as UR.
  { rewrite Same; auto. simpl. intuition discriminate. }
  assert (lookup_col "multimap_junction_reads" (columns R) = Some (Num cm)) as MR.
  { rewrite Same; auto. simpl. intuition discriminate. }
  rewrite (get_psis_filters _ _ _ mu mm _ _ Out WR DR UR MR).
  set (F := filtered_frame mu mm cu cm R).
  assert (nth_error (update (S (length h)) F h') (S (length h)) = Some F) as HF
      by (eapply nth_error_update_same; eauto).
  assert (forall x, ~ In x filtered_names ->
            lookup_col x (columns F) = lookup_col x (columns R)) as SameF.
  { intros x Hx. unfold F, filtered_frame. cbn [columns]. lookups.
    other_name Hx. reflexivity. }
  assert (lookup_cols psi5_groupby (columns F) = inr k5) as KF.
  { rewrite <- K5. apply lookup_cols_ext. intros x Hx.
    rewrite SameF, Same; auto.
    - now apply (groupby_not_derived psi5_groupby); auto.
    - intros I. apply (groupby_not_derived psi5_groupby (or_introl eq_refl) x Hx).
      unfold derived_names. apply in_or_app. auto. }
  assert (lookup_col "total_filtered_reads" (columns F)
          = Some (Num (NFloat (total_reads mu mm cu cm)))) as TF.
  { unfold F, filtered_frame. cbn [columns]. lookups. reflexivity. }
  assert (has_col "psi5_denominator" F = true) as NF.
  { unfold has_col. rewrite SameF by (simpl; intuition discriminate).
    unfold R, result_frame, psi5_frame, body_frame, filtered_frame.
    cbn [columns]. lookups. simpl String.eqb. cbv iota.
    now rewrite (has_col_false _ _ N5). }
  eexists. unfold groupbys. cbn [for_each]. apply bind_inl.
  exact (get_psis_body_overlap _ _ _ "psi5" _ _ _ HF KF TF NF).
Qed.

Lemma second_call_fails_witness :
  exists r h',
    get_psis 0%nat 5 10 [docstring_sj] = (inr r, h')
    /\ exists h'',
         get_psis r 5 10 h'
         = (inl (ValueError "columns overlap but no suffix specified"), h'').
Proof.
  apply (second_call_fails [docstring_sj] 0%nat docstring_sj 5 10);
    reflexivity.
Defined.

(** ** The motif of an intron *)

(** C9, as stated, fails: a line whose motif code is 7 is read without any
    error, and its motif is None. *)
Lemma motif_code_7_is_read :
  exists sj,
    read_sj_out_tab motif7_table = inr sj
    /\ lookup_col "intron_motif" (columns sj) = Some (ObjCol [None]).
Proof. eexists. split; reflexivity. Qed.

(** C9, amended.  The codes 0 to 6 are translated to the seven labels; any
    other integer code, 7 and above as well as a negative one, gives None,
    and the reader raises nothing for it: the motif column it returns holds
    the translation of every code, None where there is no label. *)
Theorem motif_codes :
  int_to_intron_motif (CInt 0) = Some "non-canonical"
  /\ int_to_intron_motif (CInt 1) = Some "GT/AG"
  /\ int_to_intron_motif (CInt 2) = Some "CT/AC"
  /\ int_to_intron_motif (CInt 3) = Some "GC/AG"
  /\ int_to_intron_motif (CInt 4) = Some "CT/GC"
  /\ int_to_intron_motif (CInt 5) = Some "AT/AC"
  /\ int_to_intron_motif (CInt 6) = Some "GT/AT"
  /\ (forall n, n < 0 \/ 7 <= n -> int_to_intron_motif (CInt n) = None)
  /\ (forall parsed codes flags,
        lookup_col "intron_motif" (columns parsed) = Some (Num (NInt codes)) ->
        lookup_col "annotated" (columns parsed) = Some flags ->
        exists sj,
          read_sj_out_tab parsed = inr sj
          /\ lookup_col "intron_motif" (columns sj)
             = Some (ObjCol (map (fun z => int_to_intron_motif (CInt z)) codes))).
Proof.
  repeat split; try reflexivity.
  - intros n Hn. unfold int_to_intron_motif, py_eq.
    repeat match goal with
    | |- context [Z.eqb n ?k] =>
        let E := fresh "E" in
        destruct (Z.eqb_spec n k) as [E|E]; [lia|]
    end.
    reflexivity.
  - intros parsed codes flags Lm La. unfold read_sj_out_tab.
    rewrite Lm. rewrite lookup_set_col. cbn [String.eqb Ascii.eqb Bool.eqb].
    rewrite La. eexists. split; [reflexivity|].
    cbn [columns]. rewrite !lookup_set_col.
    cbn [String.eqb Ascii.eqb Bool.eqb col_cells]. now rewrite map_map.
Qed.

Lemma motif_codes_witness :
  int_to_intron_motif (CInt 7) = None
  /\ exists sj,
       read_sj_out_tab motif7_table = inr sj
       /\ lookup_col "intron_motif" (columns sj)
          = Some (ObjCol (map (fun z => int_to_intron_motif (CInt z)) [7])).
Proof.
  destruct motif_codes as (_ & _ & _ & _ & _ & _ & _ & Out & Reader).
  split.
  - apply (Out 7). lia.
  - apply (Reader motif7_table [7] (Num (NInt [1]))); reflexivity.
Defined.

(** * The locus of a junction *)

(** ** Characters *)

Lemma has_char_app (c : ascii) (s1 s2 : string) :
  has_char c (s1 ++ s2)%string = has_char c s1 || has_char c s2.
Proof.
  induction s1 as [|a s1 IH]; simpl; auto. now rewrite IH, orb_assoc.
Qed.

Lemma remove_char_absent (c : ascii) (s : string) :
  has_char c s = false -> remove_char c s = s.
Proof.
  induction s as [|a s IH]; simpl; auto.
  intros H. apply orb_false_iff in H. destruct H as [-> H]. now rewrite IH.
Qed.

Lemma remove_char_app (c : ascii) (s1 s2 : string) :
  remove_char c (s1 ++ s2)%string
  = (remove_char c s1 ++ remove_char c s2)%string.
Proof.
  induction s1 as [|a s1 IH]; simpl; auto.
  destruct (Ascii.eqb a c); simpl; now rewrite IH.
Qed.

Lemma has_char_remove (c : ascii) (s : string) :
  has_char c (remove_char c s) = false.
Proof.
  induction s as [|a s IH]; simpl; auto.
  destruct (Ascii.eqb a c) eqn:E; simpl; auto. now rewrite E.
Qed.

Lemma split_nonempty (sep : ascii) (s : string) : split sep s <> [].
Proof.
  induction s as [|a s IH]; simpl; try discriminate.
  destruct (Ascii.eqb a sep); try discriminate.
  destruct (split sep s); discriminate.
Qed.

Lemma split_absent (sep : ascii) (s : string) :
  has_char sep s = false -> split sep s = [s].
Proof.
  induction s as [|a s IH]; simpl; auto.
  intros H. apply orb_false_iff in H. destruct H as [-> H]. now rewrite IH.
Qed.

Lemma split_app (sep : ascii) (s1 s2 : string) :
  has_char sep s1 = false ->
  split sep (s1 ++ String sep s2)%string = s1 :: split sep s2.
Proof.
  induction s1 as [|a s1 IH]; simpl.
  - intros _. now rewrite Ascii.eqb_refl.
  - intros H. apply orb_false_iff in H. destruct H as [-> H]. now rewrite IH.
Qed.

(** No piece of a split holds the separator. *)
Lemma split_pieces (sep : ascii) (s : string) :
  Forall (fun piece => has_char sep piece = false) (split sep s).
Proof.
  induction s as [|a s IH]; simpl.
  - repeat constructor.
  - destruct (Ascii.eqb a sep) eqn:E.
    + constructor; auto.
    + destruct (split sep s) as [|piece pieces].
      * repeat constructor. simpl. now rewrite E.
      * inversion IH; subst. constructor; auto. simpl. now rewrite E.
Qed.

Lemma split_length (sep : ascii) (s : string) :
  length (split sep s) = S (count_char sep s).
Proof.
  induction s as [|a s IH]; simpl; auto.
  destruct (Ascii.eqb a sep); simpl; [now rewrite IH|].
  pose proof (split_nonempty sep s).
  destruct (split sep s); simpl in *; congruence.
Qed.

Lemma count_char_remove (c d : ascii) (s : string) :
  Ascii.eqb d c = false ->
  count_char c (remove_char d s) = count_char c s.
Proof.
  intros N. induction s as [|a s IH]; simpl; auto.
  destruct (Ascii.eqb a d) eqn:E; simpl; rewrite IH; auto.
  apply Ascii.eqb_eq in E. subst a. now rewrite N.
Qed.

Lemma has_char_chars (c : ascii) (s : string) :
  has_char c s = existsb (fun a => Ascii.eqb a c) (chars s).
Proof. induction s as [|a s IH]; simpl; auto. now rewrite IH. Qed.

(** ** Decimal numbers *)

Lemma digit_not_space (c : ascii) : is_digit c = true -> is_space c = false.
Proof.
  destruct c as [[|] [|] [|] [|] [|] [|] [|] [|]]; vm_compute; congruence.
Qed.

Lemma digit_not_sign (c : ascii) :
  is_digit c = true ->
  Ascii.eqb c "-" = false /\ Ascii.eqb c "+" = false
  /\ Ascii.eqb c ":" = false /\ Ascii.eqb c "," = false.
Proof.
  destruct c as [[|] [|] [|] [|] [|] [|] [|] [|]]; vm_compute; intuition congruence.
Qed.

Lemma uint_chars (d : Decimal.uint) :
  forallb is_digit (chars (DecimalString.NilEmpty.string_of_uint d)) = true.
Proof. induction d; simpl; auto. Qed.

Lemma to_uint_not_nil (n : N) : N.to_uint n <> Decimal.Nil.
Proof.
  destruct n; simpl; try discriminate.
  apply DecimalPos.Unsigned.to_uint_nonnil.
Qed.

Lemma decimal_eq (n : N) :
  decimal n = DecimalString.NilEmpty.string_of_uint (N.to_uint n).
Proof.
  unfold decimal. pose proof (to_uint_not_nil n).
  destruct (N.to_uint n); simpl; congruence.
Qed.

Lemma decimal_digits (n : N) : forallb is_digit (chars (decimal n)) = true.
Proof. rewrite decimal_eq. apply uint_chars. Qed.

Lemma decimal_not_empty (n : N) : chars (decimal n) <> [].
Proof.
  rewrite decimal_eq. pose proof (to_uint_not_nil n).
  destruct (N.to_uint n); simpl; congruence.
Qed.

Lemma digits_without (c : ascii) (s : string) :
  is_digit c = false -> forallb is_digit (chars s) = true ->
  has_char c s = false.
Proof.
  intros N F. rewrite has_char_chars.
  apply not_true_is_false. intros H. apply existsb_exists in H.
  destruct H as (a & Ha & E). apply Ascii.eqb_eq in E. subst a.
  rewrite forallb_forall in F. rewrite (F c Ha) in N. discriminate.
Qed.

Lemma drop_spaces_digits (cs : list ascii) :
  forallb is_digit cs = true -> drop_spaces cs = cs.
Proof.
  destruct cs as [|c cs]; simpl; auto.
  intros H. apply andb_true_iff in H. destruct H as [H _].
  now rewrite (digit_not_space c H).
Qed.

Lemma forallb_rev {A} (p : A -> bool) (xs : list A) :
  forallb p xs = true -> forallb p (List.rev xs) = true.
Proof.
  rewrite !forallb_forall. intros H x Hx. apply H. now apply in_rev.
Qed.

Lemma strip_digits (cs : list ascii) :
  forallb is_digit cs = true -> strip cs = cs.
Proof.
  intros H. unfold strip. rewrite (drop_spaces_digits cs H).
  rewrite (drop_spaces_digits _ (forallb_rev _ _ H)).
  apply rev_involutive.
Qed.

Lemma digits_ok_digits (cs : list ascii) (b : bool) :
  forallb is_digit cs = true -> cs <> [] -> digits_ok cs b = true.
Proof.
  revert b. induction cs as [|c cs IH]; simpl; intros b H N; try congruence.
  apply andb_true_iff in H. destruct H as [-> H].
  destruct cs as [|c' cs]; auto. apply IH; auto. discriminate.
Qed.

Lemma filter_all {A} (p : A -> bool) (xs : list A) :
  forallb p xs = true -> filter p xs = xs.
Proof.
  induction xs as [|x xs IH]; simpl; auto.
  intros H. apply andb_true_iff in H. destruct H as [-> H]. now rewrite IH.
Qed.

(** What [str] writes for a number, [int] reads back. *)
Lemma py_int_decimal (n : N) :
  (String.length (decimal n) <= max_str_digits)%nat ->
  py_int (decimal n) = inr (Z.of_N n).
Proof.
  intros L. unfold py_int.
  pose proof (decimal_digits n) as D.
  pose proof (decimal_not_empty n) as NE.
  rewrite (strip_digits _ D).
  destruct (chars (decimal n)) as [|c cs] eqn:E; try congruence.
  assert (is_digit c = true) as Dc
      by (simpl in D; apply andb_true_iff in D; tauto).
  destruct (digit_not_sign c Dc) as (-> & -> & _).
  rewrite (digits_ok_digits _ false D) by discriminate.
  rewrite (filter_all _ _ D).
  assert (length (c :: cs) = String.length (decimal n)) as Len.
  { rewrite <- E. unfold chars. clear.
    induction (decimal n); simpl; auto. }
  rewrite Len.
  destruct (max_str_digits <? String.length (decimal n))%nat eqn:Lim.
  - apply Nat.ltb_lt in Lim. lia.
  - rewrite <- E. unfold chars. rewrite string_of_list_ascii_of_string.
    rewrite decimal_eq, DecimalString.NilEmpty.usu.
    now rewrite DecimalN.Unsigned.of_to.
Qed.

(** ** Reading a locus *)

(** X1.  A locus written as chrom, a colon, the start, a hyphen and the
    stop, the two numbers in decimal, is read back as that chromosome and
    those two numbers, whenever the name of the chromosome holds neither a
    colon nor a comma and each number has at most 4300 digits. *)
Theorem locus_text_parsed (chrom : string) (start stop : N) :
  has_char ":" chrom = false -> has_char "," chrom = false ->
  (String.length (decimal start) <= max_str_digits)%nat ->
  (String.length (decimal stop) <= max_str_digits)%nat ->
  parse_locus (locus_text chrom start stop)
  = inr (chrom, Z.of_N start, Z.of_N stop).
Proof.
  intros Hc Hm La Lb. unfold parse_locus, locus_text.
  pose proof (decimal_digits start) as Da.
  pose proof (decimal_digits stop) as Db.
  assert (forall c, is_digit c = false ->
            has_char c (decimal start ++ "-" ++ decimal stop)%string
            = Ascii.eqb "-" c) as Rest.
  { intros c Nc. rewrite has_char_app. simpl.
    rewrite (digits_without c _ Nc Da), (digits_without c _ Nc Db).
    now rewrite orb_false_r. }
  rewrite remove_char_absent.
  2:{ rewrite has_char_app, Hm. simpl. now rewrite Rest. }
  change (chrom ++ ":" ++ decimal start ++ "-" ++ decimal stop)%string
    with (chrom ++ String ":" (decimal start ++ "-" ++ decimal stop))%string.
  rewrite (split_app ":" _ _ Hc).
  rewrite split_absent by (now rewrite Rest).
  cbn [unpack2].
  change (decimal start ++ "-" ++ decimal stop)%string
    with (decimal start ++ String "-" (decimal stop))%string.
  rewrite split_app by (now apply digits_without).
  rewrite split_absent by (now apply digits_without).
  cbn [unpack2_ints].
  now rewrite (py_int_decimal start La), (py_int_decimal stop Lb).
Qed.

Lemma locus_text_parsed_witness :
  parse_locus (locus_text "chr1" 100 200) = inr ("chr1", 100, 200).
Proof.
  apply (locus_text_parsed "chr1" 100 200);
    [reflexivity | reflexivity | vm_compute; lia | vm_compute; lia].
Defined.

Lemma In_drop_spaces (c : ascii) (cs : list ascii) :
  In c (drop_spaces cs) -> In c cs.
Proof.
  induction cs as [|a cs IH]; simpl; auto.
  destruct (is_space a); simpl; auto.
Qed.

Lemma In_strip (c : ascii) (cs : list ascii) : In c (strip cs) -> In c cs.
Proof.
  unfold strip. intros H. apply in_rev in H.
  apply In_drop_spaces in H. apply in_rev in H.
  now apply In_drop_spaces in H.
Qed.

(** Without a hyphen in its text [int] gives no negative number. *)
Lemma py_int_unsigned (s : string) (z : Z) :
  has_char "-" s = false -> py_int s = inr z -> 0 <= z.
Proof.
  intros H. unfold py_int.
  assert (forall c rest, strip (chars s) = c :: rest ->
                         Ascii.eqb c "-" = false) as NoSign.
  { intros c rest E. apply not_true_is_false. intros Ec.
    rewrite has_char_chars in H.
    assert (existsb (fun a => Ascii.eqb a "-") (chars s) = true) as X.
    { apply existsb_exists. exists c. split; auto.
      apply In_strip. rewrite E. now left. }
    congruence. }
  destruct (strip (chars s)) as [|c rest] eqn:E.
  - simpl. discriminate.
  - rewrite (NoSign c rest eq_refl).
    match goal with
    | |- (let '(negative, body) := ?p in _) = _ -> _ =>
        assert (fst p = false) as F by (destruct (Ascii.eqb c "+"); reflexivity);
        destruct p as [negative body]
    end.
    simpl in F. subst negative.
    destruct (digits_ok body false); try discriminate.
    destruct (max_str_digits <? _)%nat; try discriminate.
    destruct (DecimalString.NilEmpty.uint_of_string _); try discriminate.
    intros [= <-]. apply N2Z.is_nonneg.
Qed.

Lemma split_has_char (c sep : ascii) (s : string) :
  Forall (fun piece => has_char c piece = true -> has_char c s = true)
         (split sep s).
Proof.
  induction s as [|a s IH]; simpl.
  - repeat constructor. auto.
  - destruct (Ascii.eqb a sep) eqn:E.
    + constructor; [discriminate|].
      eapply Forall_impl; [|exact IH]. simpl. intros p Hp Hc.
      rewrite (Hp Hc). apply orb_true_r.
    + destruct (split sep s) as [|piece pieces].
      * repeat constructor. simpl. rewrite orb_false_r. now intros ->.
      * inversion IH as [|? ? Hp Hps]; subst. constructor.
        -- simpl. intros Hc. apply orb_true_iff in Hc.
           destruct Hc as [->|Hc]; auto. rewrite (Hp Hc). apply orb_true_r.
        -- eapply Forall_impl; [|exact Hps]. simpl. intros p Hq Hc.
           rewrite (Hq Hc). apply orb_true_r.
Qed.

Lemma unpack2_inv {A} (pieces : list A) (a b : A) :
  unpack2 pieces = inr (a, b) -> pieces = [a; b].
Proof.
  destruct pieces as [|x [|y [|z rest]]]; simpl; try discriminate.
  now intros [= -> ->].
Qed.

Lemma unpack2_ints_inv (pieces : list string) (x y : Z) :
  unpack2_ints pieces = inr (x, y) ->
  exists a b, pieces = [a; b] /\ py_int a = inr x /\ py_int b = inr y.
Proof.
  destruct pieces as [|a [|b [|c rest]]]; simpl; try discriminate.
  - destruct (py_int a); discriminate.
  - destruct (py_int a) as [|x'] eqn:Ea; try discriminate.
    destruct (py_int b) as [|y'] eqn:Eb; try discriminate.
    intros [= -> ->]. exists a, b. auto.
  - destruct (py_int a); try discriminate.
    destruct (py_int b); try discriminate.
    destruct (py_int c); discriminate.
Qed.

(** X2.  Whatever the text, a locus that is read has a start and a stop
    that are not negative, since a hyphen can only separate them, and a
    chromosome name without colon or comma. *)
Theorem parsed_locus_unsigned (text chrom : string) (start stop : Z) :
  parse_locus text = inr (chrom, start, stop) ->
  0 <= start /\ 0 <= stop
  /\ has_char ":" chrom = false /\ has_char "," chrom = false.
Proof.
  unfold parse_locus. intros H.
  destruct (unpack2 (split ":" (remove_char "," text)))
    as [e|[c range]] eqn:U; try discriminate.
  destruct (unpack2_ints (split "-" range)) as [e|[x y]] eqn:V;
    try discriminate.
  injection H as -> -> ->.
  apply unpack2_inv in U.
  destruct (unpack2_ints_inv _ _ _ V) as (a & b & S & Pa & Pb).
  pose proof (split_pieces "-" range) as NoHyphen. rewrite S in NoHyphen.
  inversion NoHyphen as [|? ? Ha Hrest]; subst.
  inversion Hrest as [|? ? Hb _]; subst.
  pose proof (split_pieces ":" (remove_char "," text)) as NoColon.
  pose proof (split_has_char "," ":" (remove_char "," text)) as Sub.
  rewrite U in NoColon, Sub.
  inversion NoColon as [|? ? Hc _]; subst.
  inversion Sub as [|? ? Hs _]; subst.
  repeat split; eauto using py_int_unsigned.
  apply not_true_is_false. intros Hcomma.
  rewrite has_char_remove in Hs. specialize (Hs Hcomma). discriminate.
Qed.

Lemma parsed_locus_unsigned_witness :
  0 <= 5 /\ 0 <= 7
  /\ has_char ":" "chr1" = false /\ has_char "," "chr1" = false.
Proof.
  apply (parsed_locus_unsigned "chr1:+5-  7 " "chr1" 5 7). reflexivity.
Defined.

Lemma lift_inl {A} (e : exn) (r : exn + A) h :
  r = inl e -> lift r h = (inl e, h).
Proof. now intros ->. Qed.

(** X3.  A text that does not hold exactly one colon is refused with a
    ValueError before the table is looked at, so whatever the reference
    and the store, which is left as it was. *)
Theorem locus_needs_one_colon (text : string) (sj : ref) (h : store) :
  count_char ":" text <> 1%nat ->
  exists msg,
    chr_start_stop_to_sj_ind text sj h = (inl (ValueError msg), h).
Proof.
  intros N.
  assert (exists msg, parse_locus text = inl (ValueError msg)) as [msg P].
  { unfold parse_locus.
    pose proof (split_length ":" (remove_char "," text)) as L.
    rewrite count_char_remove in L by reflexivity.
    destruct (split ":" (remove_char "," text)) as [|a [|b [|c rest]]];
      simpl in *; eauto. lia. }
  exists msg. unfold chr_start_stop_to_sj_ind.
  apply bind_inl. now apply lift_inl.
Qed.

Lemma locus_needs_one_colon_witness :
  exists msg,
    chr_start_stop_to_sj_ind "chr1 100-200" 0%nat [three_junctions]
    = (inl (ValueError msg), [three_junctions]).
Proof.
  apply (locus_needs_one_colon "chr1 100-200" 0%nat [three_junctions]).
  vm_compute. lia.
Defined.

(** X4.  A comma is ignored wherever it stands in the text, in a number as
    in the name of the chromosome. *)
Theorem locus_commas_ignored (before after : string) (sj : ref) (h : store) :
  chr_start_stop_to_sj_ind (before ++ "," ++ after)%string sj h
  = chr_start_stop_to_sj_ind (before ++ after)%string sj h.
Proof.
  unfold chr_start_stop_to_sj_ind, parse_locus.
  now rewrite !remove_char_app.
Qed.

(** ** Selecting the rows of a locus *)

Lemma attr_eq_run h r f name text c :
  nth_error h r = Some f -> lookup_col name (columns f) = Some c ->
  attr_eq r name text h = (inr (mk_bools (index f) (eq_text c text)), h).
Proof.
  intros H L. unfold attr_eq. step (deref_run _ _ _ H). now rewrite L.
Qed.

Lemma attr_fail h r f name :
  nth_error h r = Some f ->
  attr r name h
  = (match lookup_col name (columns f) with
     | None => inl (AttributeError name)
     | Some (Num c) => inr (mk_series (index f) c)
     | Some _ => inl TypeError
     end, h).
Proof.
  intros H. unfold attr. step (deref_run _ _ _ H).
  destruct (lookup_col name (columns f)) as [[c| |]|]; reflexivity.
Qed.

(** The call in closed form. *)
Lemma sj_ind_run h r f text :
  nth_error h r = Some f ->
  chr_start_stop_to_sj_ind text r h
  = (match parse_locus text with
     | inl e => inl e
     | inr (chrom, start, stop) =>
         match locus_mask chrom start stop f with
         | inl e => inl e
         | inr bs => inr (mk_bools (index f) bs)
         end
     end, h).
Proof.
  intros H. unfold chr_start_stop_to_sj_ind, locus_mask.
  destruct (parse_locus text) as [e|[[chrom start] stop]]; [reflexivity|].
  cbn [lift]. unfold bind at 1. unfold ret at 1.
  unfold bind at 1. unfold attr_eq. step (deref_run _ _ _ H).
  destruct (lookup_col "chrom" (columns f)) as [c|]; [|reflexivity].
  unfold ret at 1.
  unfold bind at 1. rewrite (attr_fail _ _ _ "intron_start" H).
  destruct (lookup_col "intron_start" (columns f)) as [[s| |]|];
    try reflexivity.
  unfold bind at 1. rewrite (attr_fail _ _ _ "intron_stop" H).
  destruct (lookup_col "intron_stop" (columns f)) as [[e| |]|];
    reflexivity.
Qed.

(** X5.  For a locus that is read, on a table whose chromosomes are
    strings and whose coordinates are integers, the selector has one
    value per row, carries the index of the table and leaves the store as
    it was; a row is selected exactly when its chromosome is the one of
    the locus and its intron lies strictly inside: an intron that starts
    at the start of the locus, or stops at its stop, is left out. *)
Theorem locus_selects_strictly_inside h l df text chrom start stop cs ss es :
  nth_error h l = Some df -> well_shaped df = true ->
  parse_locus text = inr (chrom, start, stop) ->
  lookup_col "chrom" (columns df) = Some (ObjCol cs) ->
  lookup_col "intron_start" (columns df) = Some (Num (NInt ss)) ->
  lookup_col "intron_stop" (columns df) = Some (Num (NInt es)) ->
  exists m,
    chr_start_stop_to_sj_ind text l h = (inr m, h)
    /\ b_index m = index df
    /\ length (b_values m) = length (index df)
    /\ forall i c s e,
         nth_error cs i = Some c -> nth_error ss i = Some s ->
         nth_error es i = Some e ->
         (nth_error (b_values m) i = Some true
          <-> c = Some chrom /\ start < s /\ e < stop).
Proof.
  intros H W P Lc Ls Le.
  rewrite (sj_ind_run h l df text H), P. unfold locus_mask.
  rewrite Lc, Ls, Le. eexists. split; [reflexivity|].
  cbn [b_index b_values series_above series_below s_values eq_text].
  pose proof (well_shaped_lookup _ _ _ W Lc) as Nc.
  pose proof (well_shaped_lookup _ _ _ W Ls) as Ns.
  pose proof (well_shaped_lookup _ _ _ W Le) as Ne.
  simpl in Nc, Ns, Ne.
  split; [reflexivity|]. split.
  - assert (length (zip_with andb
                      (map (fun o : option string =>
                              match o with
                              | Some s0 => String.eqb s0 chrom
                              | None => false
                              end) cs)
                      (map (fun z => Z.ltb start z) ss))
            = length (index df)) as L1.
    { rewrite zip_with_length; rewrite !length_map; congruence. }
    rewrite zip_with_length; rewrite L1; auto.
    rewrite length_map. congruence.
  - intros i c s e Hc Hs He.
    rewrite !nth_error_zip_with, !nth_error_map, Hc, Hs, He.
    cbn [option_map].
    destruct c as [c|]; cbn [andb].
    + destruct (String.eqb_spec c chrom) as [->|Nq],
        (Z.ltb_spec start s), (Z.ltb_spec e stop); cbn [andb];
        split; intros X; try discriminate X; try tauto; try lia;
        destruct X as ([= E] & _); congruence.
    + split; [discriminate | intros ([=] & _)].
Qed.

Lemma locus_selects_strictly_inside_witness :
  exists m,
    chr_start_stop_to_sj_ind "chr1:100-200" 0%nat [three_junctions]
    = (inr m, [three_junctions])
    /\ b_index m = index three_junctions
    /\ length (b_values m) = length (index three_junctions)
    /\ forall i c s e,
         nth_error [Some "chr1"; Some "chr1"; Some "chr2"] i = Some c ->
         nth_error [100; 150; 150] i = Some s ->
         nth_error [200; 180; 180] i = Some e ->
         (nth_error (b_values m) i = Some true
          <-> c = Some "chr1" /\ 100 < s /\ e < 200).
Proof.
  apply (locus_selects_strictly_inside
           [three_junctions] 0%nat three_junctions "chr1:100-200"
           "chr1" 100 200); reflexivity.
Defined.

(** The values of the selector depend on the three columns it reads. *)
Lemma locus_mask_ext chrom start stop (f g : frame) :
  lookup_col "chrom" (columns g) = lookup_col "chrom" (columns f) ->
  lookup_col "intron_start" (columns g)
  = lookup_col "intron_start" (columns f) ->
  lookup_col "intron_stop" (columns g) = lookup_col "intron_stop" (columns f) ->
  locus_mask chrom start stop g = locus_mask chrom start stop f.
Proof.
  intros Ec Es Ee. unfold locus_mask. rewrite Ec, Es, Ee. reflexivity.
Qed.

Lemma selected_run h r f text :
  nth_error h r = Some f ->
  selected (chr_start_stop_to_sj_ind text r h)
  = match parse_locus text with
    | inl e => inl e
    | inr (chrom, start, stop) => locus_mask chrom start stop f
    end.
Proof.
  intros H. rewrite (sj_ind_run h r f text H). unfold selected. cbn [fst].
  destruct (parse_locus text) as [e|[[chrom start] stop]]; auto.
  destruct (locus_mask chrom start stop f); auto.
Qed.

(** X6.  Selecting by locus commutes with [get_psis]: on the frame a call
    returns, the selector has, row for row, the values it has on the table
    the call was given, and ends in the same error where it ends in
    one. *)
Theorem locus_selection_after_get_psis h l df mu mm text :
  nth_error h l = Some df -> sj_table df = true ->
  exists r h',
    get_psis l mu mm h = (inr r, h')
    /\ selected (chr_start_stop_to_sj_ind text r h')
       = selected (chr_start_stop_to_sj_ind text l h).
Proof.
  intros H T.
  destruct (get_psis_ok h l df mu mm H T)
    as (cu & cm & k5 & k3 & W & U & Mm & K5 & K3 & N5 & N3 & h' & Run & _ & Out).
  exists (S (length h)), h'. split; auto.
  rewrite (selected_run _ _ _ text Out), (selected_run _ _ _ text H).
  destruct (parse_locus text) as [e|[[chrom start] stop]]; auto.
  apply locus_mask_ext; apply result_same; simpl; intuition discriminate.
Qed.

Lemma locus_selection_after_get_psis_witness :
  exists r h',
    get_psis 0%nat 5 10 [three_junctions] = (inr r, h')
    /\ selected (chr_start_stop_to_sj_ind "chr1:99-201" r h')
       = selected (chr_start_stop_to_sj_ind "chr1:99-201" 0%nat
                     [three_junctions]).
Proof.
  apply (locus_selection_after_get_psis
           [three_junctions] 0%nat three_junctions 5 10 "chr1:99-201");
    reflexivity.
Defined.

(** * More on the scores *)

(** ** Totals *)




(** ** Denominators of a group *)

(** X8.  Two rows with the same chromosome and the same intron start have
    the same psi5 denominator, and two rows with the same chromosome and
    the same intron stop the same psi3 denominator. *)
Theorem denominator_shared_in_group h l df mu mm :
  nth_error h l = Some df -> sj_table df = true ->
  exists r h' out,
    get_psis l mu mm h = (inr r, h') /\ nth_error h' r = Some out
    /\ (forall i j k k',
          nth_error (keys_of psi5_groupby out) i = Some k ->
          nth_error (keys_of psi5_groupby out) j = Some k' ->
          label_eqb k k' = true ->
          nth_error (floats_of "psi5_denominator" out) i
          = nth_error (floats_of "psi5_denominator" out) j)
    /\ (forall i j k k',
          nth_error (keys_of psi3_groupby out) i = Some k ->
          nth_error (keys_of psi3_groupby out) j = Some k' ->
          label_eqb k k' = true ->
          nth_error (floats_of "psi3_denominator" out) i
          = nth_error (floats_of "psi3_denominator" out) j).
Proof.
  intros H T.
  destruct (get_psis_ok h l df mu mm H T)
    as (cu & cm & k5 & k3 & W & U & Mm & K5 & K3 & N5 & N3 & h' & Run & _ & Out).
  exists (S (length h)), h', (result_frame mu mm cu cm k5 k3 df).
  rewrite (result_den5 df mu mm cu cm k5 k3 N5).
  rewrite (result_den3 df mu mm cu cm k5 k3 N3).
  rewrite !(result_keys df mu mm cu cm k5 k3 W K3)
    by (apply groupby_not_derived; auto).
  rewrite (keys_of_lookup _ _ _ K5), (keys_of_lookup _ _ _ K3).
  repeat split; auto; intros i j k k' Hi Hj E;
    rewrite (denominators_nth _ _ i k Hi), (denominators_nth _ _ j k' Hj);
    rewrite (label_missing_eqb _ _ E), (group_total_eqb _ _ _ _ E);
    reflexivity.
Qed.

Lemma denominator_shared_in_group_witness :
  exists r h' out,
    get_psis 0%nat 5 0 [docstring_sj] = (inr r, h')
    /\ nth_error h' r = Some out
    /\ (forall i j k k',
          nth_error (keys_of psi5_groupby out) i = Some k ->
          nth_error (keys_of psi5_groupby out) j = Some k' ->
          label_eqb k k' = true ->
          nth_error (floats_of "psi5_denominator" out) i
          = nth_error (floats_of "psi5_denominator" out) j)
    /\ (forall i j k k',
          nth_error (keys_of psi3_groupby out) i = Some k ->
          nth_error (keys_of psi3_groupby out) j = Some k' ->
          label_eqb k k' = true ->
          nth_error (floats_of "psi3_denominator" out) i
          = nth_error (floats_of "psi3_denominator" out) j).
Proof.
  apply (denominator_shared_in_group [docstring_sj] 0%nat docstring_sj 5 0);
    reflexivity.
Defined.

(** ** The scores of a group *)













(** ** A junction alone in its group *)

Lemma pick_single {A} (mask : list bool) (xs : list A) (i : nat) (x : A) :
  nth_error xs i = Some x -> nth_error mask i = Some true ->
  (forall j, j <> i -> nth_error mask j <> Some true) ->
  pick mask xs = [x].
Proof.
  revert xs i. induction mask as [|b mask IH]; intros [|y xs] [|i] Hx Hm Hj;
    simpl in *; try discriminate.
  - injection Hx as ->. injection Hm as ->. f_equal.
    assert (forall j, nth_error mask j <> Some true) as None
        by (intros j; apply (Hj (S j)); lia).
    clear - None. revert xs.
    induction mask as [|b mask IH]; intros [|y xs]; simpl; auto.
    destruct b; [exfalso; apply (None 0%nat); reflexivity|].
    apply IH. intros j. apply (None (S j)).
  - destruct b; [exfalso; apply (Hj 0%nat); [lia | reflexivity]|].
    apply (IH xs i); auto. intros j Nj. apply (Hj (S j)). lia.
Qed.

Lemma scores_alone keys tot (i : nat) (k : label) (q : Q) :
  nth_error keys i = Some k -> label_missing k = false ->
  alone_in_group keys i k ->
  nth_error (to_floats tot) i = Some (Fin q) -> ~ (q == 0)%Q ->
  nth_error (scores keys tot) i = Some (Fin 1).
Proof.
  intros K Ms A Tt N.
  unfold scores. rewrite nth_error_zip_with, Tt.
  rewrite (denominators_nth keys tot i k K), Ms.
  unfold group_total.
  rewrite (pick_single _ _ i (Fin q)); auto.
  - unfold nansum. cbn [filter is_nan negb fold_left fadd fdiv].
    assert (Qred (0 + q) == q)%Q as R.
    { pose proof (Qred_correct (0 + q)) as R0.
      pose proof (Qplus_0_l q) as Z0. now rewrite Z0 in R0 at 2. }
    assert (Qeq_bool (Qred (0 + q)) 0 = false) as E.
    { destruct (Qeq_bool (Qred (0 + q)) 0) eqn:E; auto.
      apply Qeq_bool_iff in E. rewrite R in E. contradiction. }
    rewrite E. do 2 f_equal.
    change 1%Q with (Qred 1). apply Qred_complete.
    rewrite R. field. exact N.
  - rewrite nth_error_map, K. simpl. now rewrite label_eqb_refl.
  - intros j Nj. rewrite nth_error_map.
    destruct (nth_error keys j) as [k'|] eqn:Kj; simpl; try discriminate.
    rewrite (A j k' Nj Kj). discriminate.
Qed.

(** X10.  A junction that is alone in its group, with a total that is a
    finite number other than zero, has the score 1: psi5 when no other row
    has its chromosome and intron start, psi3 when no other row has its
    chromosome and intron stop. *)
Theorem lone_junction_scores_one h l df mu mm :
  nth_error h l = Some df -> sj_table df = true ->
  exists r h' out,
    get_psis l mu mm h = (inr r, h') /\ nth_error h' r = Some out
    /\ (forall i k q,
          nth_error (keys_of psi5_groupby out) i = Some k ->
          label_missing k = false ->
          alone_in_group (keys_of psi5_groupby out) i k ->
          nth_error (floats_of "total_filtered_reads" out) i = Some (Fin q) ->
          ~ (q == 0)%Q ->
          nth_error (floats_of "psi5" out) i = Some (Fin 1))
    /\ (forall i k q,
          nth_error (keys_of psi3_groupby out) i = Some k ->
          label_missing k = false ->
          alone_in_group (keys_of psi3_groupby out) i k ->
          nth_error (floats_of "total_filtered_reads" out) i = Some (Fin q) ->
          ~ (q == 0)%Q ->
          nth_error (floats_of "psi3" out) i = Some (Fin 1)).
Proof.
  intros H T.
  destruct (get_psis_ok h l df mu mm H T)
    as (cu & cm & k5 & k3 & W & U & Mm & K5 & K3 & N5 & N3 & h' & Run & _ & Out).
  exists (S (length h)), h', (result_frame mu mm cu cm k5 k3 df).
  rewrite (result_psi5 df mu mm cu cm k5 k3), (result_psi3 df mu mm cu cm k5 k3).
  rewrite (result_total df mu mm cu cm k5 k3).
  rewrite !(result_keys df mu mm cu cm k5 k3 W K3)
    by (apply groupby_not_derived; auto).
  rewrite (keys_of_lookup _ _ _ K5), (keys_of_lookup _ _ _ K3).
  repeat split; auto; intros i k q Hk Ms A Tt N;
    now apply (scores_alone _ (NFloat (total_reads mu mm cu cm)) i k q).
Qed.

Lemma lone_junction_scores_one_witness :
  exists r h' out,
    get_psis 0%nat 5 0 [docstring_sj] = (inr r, h')
    /\ nth_error h' r = Some out
    /\ (forall i k q,
          nth_error (keys_of psi5_groupby out) i = Some k ->
          label_missing k = false ->
          alone_in_group (keys_of psi5_groupby out) i k ->
          nth_error (floats_of "total_filtered_reads" out) i = Some (Fin q) ->
          ~ (q == 0)%Q ->
          nth_error (floats_of "psi5" out) i = Some (Fin 1))
    /\ (forall i k q,
          nth_error (keys_of psi3_groupby out) i = Some k ->
          label_missing k = false ->
          alone_in_group (keys_of psi3_groupby out) i k ->
          nth_error (floats_of "total_filtered_reads" out) i = Some (Fin q) ->
          ~ (q == 0)%Q ->
          nth_error (floats_of "psi3" out) i = Some (Fin 1)).
Proof.
  apply (lone_junction_scores_one [docstring_sj] 0%nat docstring_sj 5 0);
    reflexivity.
Defined.

(** ** What the scores depend on *)

(** X11.  The scores are computed from five columns only: two accepted
    tables with the same number of rows that agree on chrom, intron_start,
    intron_stop and the two read counts get the same totals, denominators
    and scores, whatever their strand, motif, annotation, overhang or row
    labels. *)
Theorem scores_depend_on_five_columns h1 l1 df1 h2 l2 df2 mu mm :
  nth_error h1 l1 = Some df1 -> sj_table df1 = true ->
  nth_error h2 l2 = Some df2 -> sj_table df2 = true ->
  length (index df1) = length (index df2) ->
  (forall name,
      In name ["chrom"; "intron_start"; "intron_stop";
               "unique_junction_reads"; "multimap_junction_reads"] ->
      lookup_col name (columns df1) = lookup_col name (columns df2)) ->
  exists r1 h1' out1 r2 h2' out2,
    get_psis l1 mu mm h1 = (inr r1, h1') /\ nth_error h1' r1 = Some out1
    /\ get_psis l2 mu mm h2 = (inr r2, h2') /\ nth_error h2' r2 = Some out2
    /\ forall name,
         In name ["total_filtered_reads"; "psi5_denominator"; "psi5";
                  "psi3_denominator"; "psi3"] ->
         floats_of name out1 = floats_of name out2.
Proof.
  intros H1 T1 H2 T2 L Same.
  destruct (get_psis_ok h1 l1 df1 mu mm H1 T1)
    as (cu & cm & k5 & k3 & W & U & Mm & K5 & K3 & N5 & N3 & h1' & Run1 & _ & Out1).
  destruct (get_psis_ok h2 l2 df2 mu mm H2 T2)
    as (cu' & cm' & k5' & k3' & W' & U' & Mm' & K5' & K3' & N5' & N3'
        & h2' & Run2 & _ & Out2).
  assert (cu' = cu) as ->.
  { rewrite (Same "unique_junction_reads") in U by (simpl; tauto). congruence. }
  assert (cm' = cm) as ->.
  { rewrite (Same "multimap_junction_reads") in Mm by (simpl; tauto).
    congruence. }
  assert (k5' = k5) as ->.
  { rewrite (lookup_cols_ext psi5_groupby (columns df2) (columns df1)) in K5.
    - congruence.
    - intros n [<-|[<-|[]]]; apply Same; simpl; tauto. }
  assert (k3' = k3) as ->.
  { rewrite (lookup_cols_ext psi3_groupby (columns df2) (columns df1)) in K3.
    - congruence.
    - intros n [<-|[<-|[]]]; apply Same; simpl; tauto. }
  eexists _, _, _, _, _, _.
  split; [exact Run1|]. split; [exact Out1|].
  split; [exact Run2|]. split; [exact Out2|].
  intros name [<-|[<-|[<-|[<-|[<-|[]]]]]].
  - now rewrite !result_total.
  - rewrite !result_den5 by assumption. now rewrite L.
  - rewrite !result_psi5. now rewrite L.
  - rewrite !result_den3 by assumption. now rewrite L.
  - rewrite !result_psi3. now rewrite L.
Qed.

Lemma scores_depend_on_five_columns_witness :
  exists r1 h1' out1 r2 h2' out2,
    get_psis 0%nat 5 0 [docstring_sj] = (inr r1, h1')
    /\ nth_error h1' r1 = Some out1
    /\ get_psis 0%nat 5 0 [docstring_sj_stranded] = (inr r2, h2')
    /\ nth_error h2' r2 = Some out2
    /\ forall name,
         In name ["total_filtered_reads"; "psi5_denominator"; "psi5";
                  "psi3_denominator"; "psi3"] ->
         floats_of name out1 = floats_of name out2.
Proof.
  apply (scores_depend_on_five_columns
           [docstring_sj] 0%nat docstring_sj
           [docstring_sj_stranded] 0%nat docstring_sj_stranded 5 0);
    try reflexivity.
  intros name [<-|[<-|[<-|[<-|[<-|[]]]]]]; reflexivity.
Defined.

(** * Errors that come after a write *)

Lemma lookup_cols_missing (names : list string) cols (n : string) :
  hd_error names = Some n -> lookup_col n cols = None ->
  lookup_cols names cols = inl (KeyError n).
Proof.
  destruct names as [|m names]; simpl; try discriminate.
  intros [= ->] L. now rewrite L.
Qed.

(** X12.  A table with its two read counts but without the column chrom
    is refused with KeyError only at the grouping: by then the call has
    written the three columns of filtered counts into the table of the
    caller, and they stay there. *)
Theorem missing_chrom_fails_after_writing h l df mu mm :
  nth_error h l = Some df -> countable df = true ->
  has_col "chrom" df = false ->
  exists h' df',
    get_psis l mu mm h = (inl (KeyError "chrom"), h')
    /\ nth_error h' l = Some df'
    /\ index df' = index df
    /\ (forall name, In name filtered_names -> has_col name df' = true)
    /\ (forall name, ~ In name filtered_names ->
          lookup_col name (columns df') = lookup_col name (columns df)).
Proof.
  intros H Cn Nc.
  destruct (countable_inv df Cn) as (W & D & [cu U] & [cm Mm]).
  rewrite (get_psis_filters _ _ _ mu mm _ _ H W D U Mm).
  set (F := filtered_frame mu mm cu cm df).
  assert (nth_error (update l F h) l = Some F) as HF
      by (eapply nth_error_update_same; eauto).
  assert (forall x, ~ In x filtered_names ->
            lookup_col x (columns F) = lookup_col x (columns df)) as Same.
  { intros x Hx. unfold F, filtered_frame. cbn [columns]. lookups.
    other_name Hx. reflexivity. }
  exists (update l F h), F. split.
  - unfold groupbys. cbn [for_each]. apply bind_inl.
    unfold get_psis_body. apply bind_inl. unfold groupby_sum.
    step (deref_run _ _ _ HF).
    rewrite (lookup_cols_missing psi5_groupby _ "chrom" eq_refl).
    + reflexivity.
    + rewrite Same by (simpl; intuition discriminate).
      now apply has_col_false.
  - repeat split; auto.
    intros name [<-|[<-|[<-|[]]]]; unfold has_col, F, filtered_frame;
      cbn [columns]; lookups; reflexivity.
Qed.

Lemma missing_chrom_fails_after_writing_witness :
  exists h' df',
    get_psis 0%nat 5 10 [no_chrom_sj] = (inl (KeyError "chrom"), h')
    /\ nth_error h' 0 = Some df'
    /\ index df' = index no_chrom_sj
    /\ (forall name, In name filtered_names -> has_col name df' = true)
    /\ (forall name, ~ In name filtered_names ->
          lookup_col name (columns df')
          = lookup_col name (columns no_chrom_sj)).
Proof.
  apply (missing_chrom_fails_after_writing [no_chrom_sj] 0%nat no_chrom_sj 5 10);
    reflexivity.
Defined.

(** ** Repeated row labels *)

Lemma pick_shorter {A} (mask : list bool) (xs : list A) (i : nat) :
  length mask = length xs -> nth_error mask i = Some false ->
  (length (pick mask xs) < length xs)%nat.
Proof.
  revert xs i. induction mask as [|b mask IH]; intros [|x xs] [|i] L H;
    simpl in *; try discriminate.
  - injection H as ->. pose proof (pick_length_le mask xs). lia.
  - assert (length (pick mask xs) < length xs)%nat
      by (apply (IH xs i); auto; lia).
    destruct b; simpl; lia.
Qed.

Lemma mem_label_picked (mask : list bool) (idx : list label) (j : nat)
  (a b : label) :
  nth_error mask j = Some true -> nth_error idx j = Some b ->
  label_eqb a b = true -> mem_label a (pick mask idx) = true.
Proof.
  intros Hm Hi E. apply existsb_exists. exists b. split; auto.
  eapply In_pick; eauto.
Qed.

Lemma has_dup_picked (mask : list bool) (idx : list label) (i j : nat)
  (a b : label) :
  (i < j)%nat ->
  nth_error mask i = Some true -> nth_error idx i = Some a ->
  nth_error mask j = Some true -> nth_error idx j = Some b ->
  label_eqb a b = true -> has_dup (pick mask idx) = true.
Proof.
  revert idx i j. induction mask as [|m mask IH]; intros [|x idx] [|i] [|j] L;
    simpl; try discriminate; try lia.
  - intros [= ->] [= ->] Hm Hi E. simpl. apply orb_true_iff. left.
    eapply mem_label_picked; eauto.
  - intros Hmi Hii Hmj Hij E.
    assert (has_dup (pick mask idx) = true) as Dp
        by (apply (IH idx i j); auto; lia).
    destruct m; simpl; auto. rewrite Dp. apply orb_true_r.
Qed.

(** X13.  When two rows that pass the threshold on the multimapping reads
    carry the same row label and some row does not pass it, the first
    assignment fails: the call raises ValueError, cannot reindex on an axis
    with duplicate labels, and nothing has been written. *)
Theorem repeated_labels_refused h l df mu mm cm i j a b k :
  nth_error h l = Some df -> well_shaped df = true ->
  lookup_col "multimap_junction_reads" (columns df) = Some (Num cm) ->
  (i < j)%nat ->
  nth_error (index df) i = Some a -> nth_error (index df) j = Some b ->
  label_eqb a b = true ->
  nth_error (series_ge (mk_series (index df) cm) mm) i = Some true ->
  nth_error (series_ge (mk_series (index df) cm) mm) j = Some true ->
  nth_error (series_ge (mk_series (index df) cm) mm) k = Some false ->
  get_psis l mu mm h
  = (inl (ValueError "cannot reindex on an axis with duplicate labels"), h).
Proof.
  intros H W Mm Lt Ia Ib E Pi Pj Pk.
  pose proof (num_length_lookup _ _ _ W Mm) as LM.
  unfold get_psis.
  step (attr_run _ _ _ _ _ H Mm). step (attr_run _ _ _ _ _ H Mm).
  apply bind_inl. unfold setitem. step (deref_run _ _ _ H).
  apply bind_inl. apply lift_inl.
  unfold reindex_for_setitem, select. cbn [s_index s_values].
  set (mask := series_ge (mk_series (index df) cm) mm) in *.
  assert (length mask = length (index df)) as Lm
      by (unfold mask; rewrite series_ge_length; exact LM).
  destruct (index_eqb (pick mask (index df)) (index df)) eqn:Eq.
  - apply index_eqb_length in Eq.
    pose proof (pick_shorter mask (index df) k Lm Pk). lia.
  - now rewrite (has_dup_picked mask (index df) i j a b Lt Pi Ia Pj Ib E).
Qed.

Lemma repeated_labels_refused_witness :
  get_psis 0%nat 5 10 [concatenated_sj]
  = (inl (ValueError "cannot reindex on an axis with duplicate labels"),
     [concatenated_sj]).
Proof.
  apply (repeated_labels_refused
           [concatenated_sj] 0%nat concatenated_sj 5 10
           (NInt [12; 0; 15; 0]) 0%nat 2%nat [CInt 0] [CInt 0] 1%nat);
    try reflexivity. lia.
Defined.

(** * The reader *)

Lemma read_sj_out_tab_run (parsed : frame) (motif annotated : column) :
  lookup_col "intron_motif" (columns parsed) = Some motif ->
  lookup_col "annotated" (columns parsed) = Some annotated ->
  read_sj_out_tab parsed
  = inr (mk_frame (index parsed)
           (set_col "annotated" (BoolCol (map py_bool (col_cells annotated)))
              (set_col "intron_motif"
                 (ObjCol (map int_to_intron_motif (col_cells motif)))
                 (columns parsed)))).
Proof.
  intros Lm La. unfold read_sj_out_tab. rewrite Lm, lookup_set_col.
  cbn [String.eqb Ascii.eqb Bool.eqb]. now rewrite La.
Qed.

(** X14.  A table read by [read_sj_out_tab] can be given to [get_psis]:
    when what [pd.read_table] returned is an accepted table with its motif
    and annotation columns, the reader returns a table on which
    [get_psis] returns for all thresholds. *)
Theorem get_psis_accepts_what_is_read (parsed : frame) (mu mm : Z) :
  sj_table parsed = true ->
  has_col "intron_motif" parsed = true -> has_col "annotated" parsed = true ->
  exists sj,
    read_sj_out_tab parsed = inr sj
    /\ sj_table sj = true
    /\ exists r h', get_psis 0%nat mu mm [sj] = (inr r, h').
Proof.
  intros T Hm Ha.
  destruct (has_col_inv _ _ Hm) as [motif Lm].
  destruct (has_col_inv _ _ Ha) as [ann La].
  pose proof (read_sj_out_tab_run parsed motif ann Lm La) as R.
  eexists. split; [exact R|].
  pose proof (reader_output_accepted _ _ T R) as T'.
  split; auto.
  destruct (get_psis_ok [_] 0%nat _ mu mm eq_refl T')
    as (cu & cm & k5 & k3 & _ & _ & _ & _ & _ & _ & _ & h' & Run & _).
  eauto.
Qed.

Lemma get_psis_accepts_what_is_read_witness :
  exists sj,
    read_sj_out_tab parsed_two_lines = inr sj
    /\ sj_table sj = true
    /\ exists r h', get_psis 0%nat 5 10 [sj] = (inr r, h').
Proof.
  apply (get_psis_accepts_what_is_read parsed_two_lines 5 10); reflexivity.
Defined.

Lemma motif_in_range (n : Z) :
  0 <= n <= 6 ->
  n = 0 \/ n = 1 \/ n = 2 \/ n = 3 \/ n = 4 \/ n = 5 \/ n = 6.
Proof. lia. Qed.

Lemma motif_out_of_range (n : Z) :
  ~ 0 <= n <= 6 -> int_to_intron_motif (CInt n) = None.
Proof.
  intros Hn. unfold int_to_intron_motif, py_eq.
  repeat match goal with
  | |- context [Z.eqb n ?k] =>
      let E := fresh "E" in
      destruct (Z.eqb_spec n k) as [E|E]; [lia|]
  end.
  reflexivity.
Qed.

(** X15.  An integer code has a motif label exactly when it lies between
    0 and 6, and two codes with the same label are the same code: the
    label tells the code. *)
Theorem motif_label_tells_code :
  (forall n, int_to_intron_motif (CInt n) <> None <-> 0 <= n <= 6)
  /\ (forall n m,
        int_to_intron_motif (CInt n) <> None ->
        int_to_intron_motif (CInt n) = int_to_intron_motif (CInt m) ->
        n = m).
Proof.
  assert (forall n, int_to_intron_motif (CInt n) <> None <-> 0 <= n <= 6)
    as Range.
  { intros n. split.
    - intros H. destruct (Z_le_dec 0 n) as [A|A];
        [destruct (Z_le_dec n 6) as [B|B]|]; auto;
        exfalso; apply H; apply motif_out_of_range; lia.
    - intros H.
      destruct (motif_in_range n H) as [->|[->|[->|[->|[->|[->| ->]]]]]];
        discriminate. }
  split; auto.
  intros n m Hn E.
  assert (int_to_intron_motif (CInt m) <> None) as Hm by congruence.
  apply Range in Hn, Hm.
  destruct (motif_in_range n Hn) as [->|[->|[->|[->|[->|[->| ->]]]]]];
    destruct (motif_in_range m Hm) as [->|[->|[->|[->|[->|[->| ->]]]]]];
    try reflexivity; vm_compute in E; discriminate.
Qed.

Lemma motif_label_tells_code_witness :
  (int_to_intron_motif (CInt 3) <> None <-> 0 <= 3 <= 6) /\ 3 = 3.
Proof.
  destruct motif_label_tells_code as [Range Inj]. split.
  - apply (Range 3).
  - apply (Inj 3 3); [discriminate | reflexivity].
Defined.

(** X16.  The reader leaves the rows and their labels as they are and
    rewrites two columns only: every column other than intron_motif and
    annotated is unchanged, the motif column holds the label of each code,
    and an annotation read as an integer is True exactly when it is not
    0. *)
Theorem reader_rewrites_two_columns (parsed : frame) (codes flags : list Z) :
  lookup_col "intron_motif" (columns parsed) = Some (Num (NInt codes)) ->
  lookup_col "annotated" (columns parsed) = Some (Num (NInt flags)) ->
  exists sj,
    read_sj_out_tab parsed = inr sj
    /\ index sj = index parsed
    /\ lookup_col "intron_motif" (columns sj)
       = Some (ObjCol (map (fun z => int_to_intron_motif (CInt z)) codes))
    /\ lookup_col "annotated" (columns sj)
       = Some (BoolCol (map (fun z => negb (Z.eqb z 0)) flags))
    /\ forall name,
         name <> "intron_motif" -> name <> "annotated" ->
         lookup_col name (columns sj) = lookup_col name (columns parsed).
Proof.
  intros Lm La.
  rewrite (read_sj_out_tab_run parsed _ _ Lm La).
  eexists. split; [reflexivity|]. cbn [index columns col_cells].
  rewrite !map_map. repeat split.
  - rewrite !lookup_set_col. reflexivity.
  - rewrite !lookup_set_col. reflexivity.
  - intros name Nm Na. rewrite !lookup_set_col.
    destruct (String.eqb_spec "annotated" name); [congruence|].
    destruct (String.eqb_spec "intron_motif" name); [congruence|].
    reflexivity.
Qed.

Lemma reader_rewrites_two_columns_witness :
  exists sj,
    read_sj_out_tab parsed_two_lines = inr sj
    /\ index sj = index parsed_two_lines
    /\ lookup_col "intron_motif" (columns sj)
       = Some (ObjCol (map (fun z => int_to_intron_motif (CInt z)) [1; 0]))
    /\ lookup_col "annotated" (columns sj)
       = Some (BoolCol (map (fun z => negb (Z.eqb z 0)) [1; 0]))
    /\ forall name,
         name <> "intron_motif" -> name <> "annotated" ->
         lookup_col name (columns sj)
         = lookup_col name (columns parsed_two_lines).
Proof.
  apply (reader_rewrites_two_columns parsed_two_lines [1; 0] [1; 0]);
    reflexivity.
Defined.

Lemma py_eq_float (n k : Z) : py_eq (CFloat (of_int n)) k = py_eq (CInt n) k.
Proof.
  unfold py_eq, of_int, Qeq_bool, inject_Z. simpl.
  now rewrite !Z.mul_1_r.
Qed.

(** X17.  A motif column that was read as float64, as happens when a line
    lacks the code, is translated like an integer one: a float that is a
    whole number gets the label of that number, and NaN and the
    infinities get None. *)
Theorem float_motif_codes (n : Z) :
  int_to_intron_motif (CFloat (of_int n)) = int_to_intron_motif (CInt n)
  /\ int_to_intron_motif (CFloat NaN) = None
  /\ int_to_intron_motif (CFloat PInf) = None
  /\ int_to_intron_motif (CFloat NInf) = None.
Proof.
  repeat split; try reflexivity.
  unfold int_to_intron_motif. now rewrite !py_eq_float.
Qed.
